(** * genro-auth: token lifecycle over an in-memory storage backend

    A shallow embedding of [genro_auth/storage.py] (class
    [MemoryTokenStorage]) and [genro_auth/tokens.py] (class [TokenManager]).

    Python objects live in an explicit object heap, so that the shallow
    [dict.copy()] of the storage backend and the sharing of list objects
    are visible.  Methods are computations in a state-and-exception monad.
    The library calls the methods rely on ([hashlib.sha256], naive
    [datetime] arithmetic, [isoformat] / [fromisoformat]) are written out
    as executable functions. *)

From stdpp Require Import gmap strings list fin_maps.
From Stdlib Require Import ZArith Ascii String Lia.

Local Open Scope Z_scope.

(** ** SHA-256 (FIPS 180-4), as used by [TokenManager._hash_token] *)

Module SHA256.

Definition mask32 : Z := 4294967295.

Definition wrap (x : Z) : Z := Z.land x mask32.
Definition add32 (x y : Z) : Z := wrap (x + y).
Definition rotr (n x : Z) : Z :=
  Z.lor (Z.shiftr x n) (wrap (Z.shiftl x (32 - n))).
Definition not32 (x : Z) : Z := Z.lxor x mask32.

Definition choose (x y z : Z) : Z := Z.lxor (Z.land x y) (Z.land (not32 x) z).
Definition majority (x y z : Z) : Z :=
  Z.lxor (Z.lxor (Z.land x y) (Z.land x z)) (Z.land y z).
Definition big_sigma0 (x : Z) : Z := Z.lxor (Z.lxor (rotr 2 x) (rotr 13 x)) (rotr 22 x).
Definition big_sigma1 (x : Z) : Z := Z.lxor (Z.lxor (rotr 6 x) (rotr 11 x)) (rotr 25 x).
Definition small_sigma0 (x : Z) : Z := Z.lxor (Z.lxor (rotr 7 x) (rotr 18 x)) (Z.shiftr x 3).
Definition small_sigma1 (x : Z) : Z := Z.lxor (Z.lxor (rotr 17 x) (rotr 19 x)) (Z.shiftr x 10).

(** The round constants and the initial hash value are the leading 32
    fractional bits of the cube (resp. square) roots of the first primes;
    they are computed here rather than tabulated. *)
Definition primes64 : list Z :=
  [ 2; 3; 5; 7; 11; 13; 17; 19; 23; 29; 31; 37; 41; 43; 47; 53;
    59; 61; 67; 71; 73; 79; 83; 89; 97; 101; 103; 107; 109; 113; 127; 131;
    137; 139; 149; 151; 157; 163; 167; 173; 179; 181; 191; 193; 197; 199; 211; 223;
    227; 229; 233; 239; 241; 251; 257; 263; 269; 271; 277; 281; 283; 293; 307; 311 ].

Fixpoint cube_root_bits (bits : nat) (n r : Z) : Z :=
  match bits with
  | O => r
  | S b =>
      let c := r + Z.shiftl 1 (Z.of_nat b) in
      cube_root_bits b n (if c * c * c <=? n then c else r)
  end.

Definition frac_cube_root (p : Z) : Z := wrap (cube_root_bits 36 (Z.shiftl p 96) 0).
Definition frac_square_root (p : Z) : Z := wrap (Z.sqrt (Z.shiftl p 64)).

Definition round_constants : list Z :=
  Eval vm_compute in List.map frac_cube_root primes64.

Definition initial_hash : list Z :=
  Eval vm_compute in List.map frac_square_root (firstn 8 primes64).

(** Working variables a..h, also the running hash value. *)
Record regs := Regs { ra : Z; rb : Z; rc : Z; rd : Z; re : Z; rf : Z; rg : Z; rh : Z }.

Definition regs_of_list (l : list Z) : regs :=
  let n i := nth i l 0 in
  Regs (n 0%nat) (n 1%nat) (n 2%nat) (n 3%nat) (n 4%nat) (n 5%nat) (n 6%nat) (n 7%nat).

Definition round (k wt : Z) (v : regs) : regs :=
  let t1 := add32 (add32 (add32 (add32 (rh v) (big_sigma1 (re v)))
                                (choose (re v) (rf v) (rg v))) k) wt in
  let t2 := add32 (big_sigma0 (ra v)) (majority (ra v) (rb v) (rc v)) in
  Regs (add32 t1 t2) (ra v) (rb v) (rc v) (add32 (rd v) t1) (re v) (rf v) (rg v).

(** The message schedule is kept as a sliding window of sixteen words,
    oldest first: the head is W(t) and the word appended is W(t+16). *)
Definition next_word (win : list Z) : Z :=
  let n i := nth i win 0 in
  add32 (add32 (add32 (small_sigma1 (n 14%nat)) (n 9%nat)) (small_sigma0 (n 1%nat))) (n 0%nat).

Fixpoint rounds (ks : list Z) (win : list Z) (v : regs) : regs :=
  match ks with
  | [] => v
  | k :: ks' =>
      rounds ks' (List.tl win ++ [next_word win]) (round k (nth 0 win 0) v)
  end.

Definition compress (h : regs) (block : list Z) : regs :=
  let v := rounds round_constants block h in
  Regs (add32 (ra h) (ra v)) (add32 (rb h) (rb v)) (add32 (rc h) (rc v))
       (add32 (rd h) (rd v)) (add32 (re h) (re v)) (add32 (rf h) (rf v))
       (add32 (rg h) (rg v)) (add32 (rh h) (rh v)).

(** Padding: one bit, zeros up to 56 mod 64, then the bit length on 8 bytes. *)
Definition be_bytes (n : nat) (x : Z) : list Z :=
  List.map (fun i => Z.land (Z.shiftr x (8 * Z.of_nat i)) 255) (rev (seq 0 n)).

Definition pad (msg : list Z) : list Z :=
  let len := Z.of_nat (List.length msg) in
  let zeros := Z.to_nat ((55 - len) mod 64) in
  msg ++ [128] ++ repeat 0 zeros ++ be_bytes 8 (8 * len).

Fixpoint be_words (fuel : nat) (bs : list Z) : list Z :=
  match fuel, bs with
  | S f, b0 :: b1 :: b2 :: b3 :: rest =>
      (Z.shiftl b0 24 + Z.shiftl b1 16 + Z.shiftl b2 8 + b3) :: be_words f rest
  | _, _ => []
  end.

Fixpoint blocks (fuel : nat) (ws : list Z) (h : regs) : regs :=
  match fuel, ws with
  | S f, _ :: _ => blocks f (skipn 16 ws) (compress h (firstn 16 ws))
  | _, _ => h
  end.

Definition digest (msg : list Z) : regs :=
  let ws := be_words (List.length msg + 72) (pad msg) in
  blocks (List.length ws) ws (regs_of_list initial_hash).

Definition hex_digit (x : Z) : ascii :=
  ascii_of_nat (Z.to_nat (if x <? 10 then 48 + x else 87 + x)).

Definition hex_word (x : Z) (tail : string) : string :=
  let d i := hex_digit (Z.land (Z.shiftr x (4 * i)) 15) in
  String (d 7) (String (d 6) (String (d 5) (String (d 4)
    (String (d 3) (String (d 2) (String (d 1) (String (d 0) tail))))))).

Definition hex_of_regs (v : regs) : string :=
  hex_word (ra v) (hex_word (rb v) (hex_word (rc v) (hex_word (rd v)
    (hex_word (re v) (hex_word (rf v) (hex_word (rg v) (hex_word (rh v) ""))))))).

Fixpoint bytes_of_string (s : string) : list Z :=
  match s with
  | EmptyString => []
  | String c s' => Z.of_nat (nat_of_ascii c) :: bytes_of_string s'
  end.

(** [hashlib.sha256(data).hexdigest()] *)
Definition hexdigest (data : string) : string :=
  hex_of_regs (digest (bytes_of_string data)).

End SHA256.

(** ** Python exceptions that the modelled code can raise *)

Inductive exn : Type :=
| KeyError
| ValueError
| TypeError
| OverflowError.

(** ** Naive [datetime] values

    [datetime.utcnow()] yields a naive datetime (no tzinfo); such a value
    is its seven calendar fields.  Comparison, addition of a whole number
    of seconds, [isoformat()] and [fromisoformat()] follow the standard
    library. *)

Module Datetime.

Record datetime : Type := Build {
  year : Z; month : Z; day : Z;
  hour : Z; minute : Z; second : Z; microsecond : Z
}.

Definition is_leap (y : Z) : bool :=
  (y mod 4 =? 0) && (negb (y mod 100 =? 0) || (y mod 400 =? 0)).

Definition DAYS_IN_MONTH : list Z := [31; 28; 31; 30; 31; 30; 31; 31; 30; 31; 30; 31].
Definition DAYS_BEFORE_MONTH : list Z := [0; 31; 59; 90; 120; 151; 181; 212; 243; 273; 304; 334].

Definition month_entry (table : list Z) (m : Z) : Z := nth (Z.to_nat (m - 1)) table 0.

Definition days_in_month (y m : Z) : Z :=
  if (m =? 2) && is_leap y then 29 else month_entry DAYS_IN_MONTH m.

Definition days_before_month (y m : Z) : Z :=
  month_entry DAYS_BEFORE_MONTH m + (if (2 <? m) && is_leap y then 1 else 0).

Definition days_before_year (y : Z) : Z :=
  let p := y - 1 in p * 365 + p / 4 - p / 100 + p / 400.

Definition MINYEAR : Z := 1.
Definition MAXYEAR : Z := 9999.
Definition MAXORDINAL : Z := 3652059.

Definition between (lo x hi : Z) : bool := (lo <=? x) && (x <=? hi).

(** The range checks of the [datetime] constructor. *)
Definition valid (d : datetime) : bool :=
  between MINYEAR (year d) MAXYEAR
  && between 1 (month d) 12
  && between 1 (day d) (days_in_month (year d) (month d))
  && between 0 (hour d) 23
  && between 0 (minute d) 59
  && between 0 (second d) 59
  && between 0 (microsecond d) 999999.

(** [datetime(y, m, d, hh, mm, ss, us)]: [None] stands for the
    [ValueError] of an out-of-range field. *)
Definition make (y m d hh mm ss us : Z) : option datetime :=
  let r := Build y m d hh mm ss us in
  if valid r then Some r else None.

(** [a < b] on naive datetimes compares the fields lexicographically. *)
Fixpoint lex_lt (xs ys : list Z) : bool :=
  match xs, ys with
  | x :: xs', y :: ys' => (x <? y) || ((x =? y) && lex_lt xs' ys')
  | _, _ => false
  end.

Definition fields (d : datetime) : list Z :=
  [year d; month d; day d; hour d; minute d; second d; microsecond d].

Definition lt (a b : datetime) : bool := lex_lt (fields a) (fields b).

(** Proleptic Gregorian ordinal: 0001-01-01 is day 1. *)
Definition ymd2ord (y m d : Z) : Z :=
  days_before_year y + days_before_month y m + d.

Definition toordinal (d : datetime) : Z := ymd2ord (year d) (month d) (day d).

Definition DI400Y : Z := 146097.
Definition DI100Y : Z := 36524.
Definition DI4Y : Z := 1461.

(** Month and day of the day numbered [n] (from 0) of a year: the month is
    estimated as [(n + 50) >> 5] and corrected downwards when too large. *)
Definition month_and_day (leapyear : bool) (n : Z) : Z * Z :=
  let m := Z.shiftr (n + 50) 5 in
  let preceding :=
    month_entry DAYS_BEFORE_MONTH m + (if (2 <? m) && leapyear then 1 else 0) in
  if n <? preceding then
    let m' := m - 1 in
    let preceding' :=
      preceding - (month_entry DAYS_IN_MONTH m' + (if (m' =? 2) && leapyear then 1 else 0)) in
    (m', n - preceding' + 1)
  else (m, n - preceding + 1).

Definition ord2ymd (ordinal : Z) : Z * Z * Z :=
  let n := ordinal - 1 in
  let n400 := n / DI400Y in
  let n := n mod DI400Y in
  let n100 := n / DI100Y in
  let n := n mod DI100Y in
  let n4 := n / DI4Y in
  let n := n mod DI4Y in
  let n1 := n / 365 in
  let n := n mod 365 in
  let y := n400 * 400 + 1 + n100 * 100 + n4 * 4 + n1 in
  if (n1 =? 4) || (n100 =? 4) then (y - 1, 12, 31)
  else
    let leapyear := (n1 =? 3) && (negb (n4 =? 24) || (n100 =? 3)) in
    let '(m, d) := month_and_day leapyear n in
    (y, m, d).

(** [d + timedelta(seconds=secs)] for an integer [secs]. *)
Definition add_seconds (d : datetime) (secs : Z) : exn + datetime :=
  let total :=
    toordinal d * 86400 + hour d * 3600 + minute d * 60 + second d + secs in
  let days := total / 86400 in
  let rest := total mod 86400 in
  if (0 <? days) && (days <=? MAXORDINAL) then
    let '(y, m, dd) := ord2ymd days in
    match make y m dd (rest / 3600) (rest mod 3600 / 60) (rest mod 60) (microsecond d) with
    | Some r => inr r
    | None => inl ValueError
    end
  else inl OverflowError.

(** *** [isoformat()] *)

Definition digit_char (k : Z) : ascii := ascii_of_nat (Z.to_nat (48 + k)).

Definition dec2 (x : Z) (tail : string) : string :=
  String (digit_char (x / 10 mod 10)) (String (digit_char (x mod 10)) tail).

Definition dec4 (x : Z) (tail : string) : string := dec2 (x / 100) (dec2 (x mod 100) tail).

Definition dec6 (x : Z) (tail : string) : string := dec2 (x / 10000) (dec4 (x mod 10000) tail).

(** ["%04d-%02d-%02dT%02d:%02d:%02d"], followed by [".%06d"] when the
    microsecond field is not zero. *)
Definition isoformat (d : datetime) : string :=
  dec4 (year d) (String "-" (dec2 (month d) (String "-" (dec2 (day d)
    (String "T" (dec2 (hour d) (String ":" (dec2 (minute d) (String ":" (dec2 (second d)
      (if microsecond d =? 0 then EmptyString
       else String "." (dec6 (microsecond d) EmptyString)))))))))))).

(** *** [fromisoformat()] *)

Definition digit_val (c : ascii) : option Z :=
  let n := Z.of_nat (nat_of_ascii c) in
  if between 48 n 57 then Some (n - 48) else None.

(** Reads exactly [n] decimal digits. *)
Fixpoint parse_digits (n : nat) (acc : Z) (s : string) : option (Z * string) :=
  match n with
  | O => Some (acc, s)
  | S n' =>
      match s with
      | String c s' =>
          match digit_val c with
          | Some k => parse_digits n' (10 * acc + k) s'
          | None => None
          end
      | EmptyString => None
      end
  end.

Definition expect (c : ascii) (s : string) : option string :=
  match s with
  | String c' s' => if Ascii.eqb c c' then Some s' else None
  | EmptyString => None
  end.

Definition parse_fraction (s : string) : option Z :=
  match s with
  | EmptyString => Some 0
  | String c s' =>
      if Ascii.eqb c "." then
        match parse_digits 6 0 s' with
        | Some (us, EmptyString) => Some us
        | _ => None
        end
      else None
  end.

(** The shapes accepted are [YYYY-MM-DD], and [YYYY-MM-DD] followed by one
    separator character and [HH:MM:SS] or [HH:MM:SS.ffffff]; they include
    everything [isoformat] prints.  [None] stands for [ValueError].  The
    library accepts a few more shapes (hours alone, three-digit fractions,
    UTC offsets), which no string written by [MemoryTokenStorage.set]
    has; nothing below relies on a string being rejected. *)
Definition fromisoformat (s : string) : option datetime :=
  '(y, s) ← parse_digits 4 0 s;
  s ← expect "-" s;
  '(m, s) ← parse_digits 2 0 s;
  s ← expect "-" s;
  '(d, s) ← parse_digits 2 0 s;
  match s with
  | EmptyString => make y m d 0 0 0 0
  | String _ s =>
      '(hh, s) ← parse_digits 2 0 s;
      s ← expect ":" s;
      '(mm, s) ← parse_digits 2 0 s;
      s ← expect ":" s;
      '(ss, s) ← parse_digits 2 0 s;
      us ← parse_fraction s;
      make y m d hh mm ss us
  end.

End Datetime.

Abbreviation datetime := Datetime.datetime.

(** ** Python values and the object heap

    Strings, integers, [None] and datetimes are immutable and are values.
    Dicts and lists are mutable objects: a value only holds a reference
    to them, and two references to one location alias. *)

Definition loc : Type := nat.

Inductive value : Type :=
| VNone
| VInt (n : Z)
| VStr (s : string)
| VDatetime (d : datetime)
| VRef (l : loc).

Inductive obj : Type :=
| ODict (d : gmap string value)
| OList (xs : list string).

(** The interpreter state: the heap of mutable objects, and the attribute
    [_store] of the one [MemoryTokenStorage] instance, a dict from keys to
    (references to) the stored dicts. *)
Record state : Type := State {
  heap : list obj;
  _store : gmap string loc
}.

Definition init : state := State [] ∅.

(** ** Computations: state passing with exceptions *)

Inductive result (A : Type) : Type :=
| Ok (a : A) (st : state)
| Raise (e : exn) (st : state).
Arguments Ok {A} a st.
Arguments Raise {A} e st.

Definition M (A : Type) : Type := state -> result A.

Definition ret {A} (a : A) : M A := fun st => Ok a st.

Definition raise {A} (e : exn) : M A := fun st => Raise e st.

Definition bind {A B} (m : M A) (k : A -> M B) : M B :=
  fun st =>
    match m st with
    | Ok a st' => k a st'
    | Raise e st' => Raise e st'
    end.

Notation "'let*' x ':=' m 'in' k" := (bind m (fun x => k))
  (at level 10, x name, m at level 100, k at level 200).

Definition final_state {A} (r : result A) : state :=
  match r with Ok _ st => st | Raise _ st => st end.

Definition lift {A} (r : exn + A) : M A :=
  match r with inl e => raise e | inr a => ret a end.

(** *** Heap primitives *)

(** A new object gets the next free location. *)
Definition alloc (o : obj) : M loc :=
  fun st => Ok (List.length (heap st)) (State (heap st ++ [o]) (_store st)).

(** The dict behind a reference; a reference to anything else is a type
    error of the caller. *)
Definition load_dict (l : loc) : M (gmap string value) :=
  fun st =>
    match heap st !! l with
    | Some (ODict d) => Ok d st
    | _ => Raise TypeError st
    end.

Definition load_list (l : loc) : M (list string) :=
  fun st =>
    match heap st !! l with
    | Some (OList xs) => Ok xs st
    | _ => Raise TypeError st
    end.

(** [d[k] = v] on the dict object at [l] *)
Definition dict_setitem (l : loc) (k : string) (v : value) : M unit :=
  let* d := load_dict l in
  fun st => Ok tt (State (<[l := ODict (<[k := v]> d)]> (heap st)) (_store st)).

(** [xs.append(x)] on the list object at [l] *)
Definition list_append (l : loc) (x : string) : M unit :=
  let* xs := load_list l in
  fun st => Ok tt (State (<[l := OList (xs ++ [x])]> (heap st)) (_store st)).

(** [d.get(k)]: [None] for a missing key *)
Definition dict_get (d : gmap string value) (k : string) : value :=
  default VNone (d !! k).

(** [v == s] for a string literal [s] *)
Definition is_str (v : value) (s : string) : bool :=
  match v with
  | VStr s' => String.eqb s' s
  | _ => false
  end.

(** Truth value of an object: empty containers, [None], zero and the empty
    string are false. *)
Definition truthy_in (h : list obj) (v : value) : bool :=
  match v with
  | VNone => false
  | VInt n => negb (n =? 0)
  | VStr s => negb (String.eqb s "")
  | VDatetime _ => true
  | VRef l =>
      match h !! l with
      | Some (ODict d) => negb (Nat.eqb (size d) 0)
      | Some (OList xs) => negb (Nat.eqb (List.length xs) 0)
      | None => true
      end
  end.

Definition truthy (v : value) : M bool := fun st => Ok (truthy_in (heap st) v) st.

(** [v < now] where [now] is a datetime: only datetimes are comparable. *)
Definition lt_datetime (v : value) (now : datetime) : M bool :=
  match v with
  | VDatetime e => ret (Datetime.lt e now)
  | _ => raise TypeError
  end.

(** ** [storage.py]: class [MemoryTokenStorage] *)

Module MemoryTokenStorage.

(** [self._store[key] = stored_value] *)
Definition store_setitem (key : string) (l : loc) : M unit :=
  fun st => Ok tt (State (heap st) (<[key := l]> (_store st))).

Definition set (key : string) (value : loc) : M unit :=
  let* d := load_dict value in
  (* stored_value = value.copy() *)
  let* stored_value := alloc (ODict d) in
  let* _ :=
    match d !! "expires_at" with
    | Some (VDatetime t) =>
        dict_setitem stored_value "expires_at" (VStr (Datetime.isoformat t))
    | _ => ret tt
    end in
  store_setitem key stored_value.

Definition get (key : string) : M (option loc) :=
  fun st =>
    match _store st !! key with
    | None => Ok None st
    | Some value =>
        (let* d := load_dict value in
         (* result = value.copy() *)
         let* result := alloc (ODict d) in
         let* _ :=
           match d !! "expires_at" with
           | Some (VStr s) =>
               match Datetime.fromisoformat s with
               | Some t => dict_setitem result "expires_at" (VDatetime t)
               | None => raise ValueError
               end
           | _ => ret tt
           end in
         ret (Some result)) st
    end.

(** [self._store.pop(key, None)] *)
Definition delete (key : string) : M unit :=
  fun st => Ok tt (State (heap st) (base.delete key (_store st))).

(** [delete] applied to a value read from a record: a dict or list is
    unhashable, and a hashable value that is not a string is no key of
    the store. *)
Definition delete_value (key : value) : M unit :=
  match key with
  | VStr k => delete k
  | VRef _ => raise TypeError
  | _ => ret tt
  end.

Definition clear : M unit :=
  fun st => Ok tt (State (heap st) ∅).

End MemoryTokenStorage.

(** ** [tokens.py]: class [TokenManager]

    The manager runs against the [MemoryTokenStorage] of the state.  The
    two reads of the environment are arguments: the strings drawn by
    [secrets.token_urlsafe(32)] and the reading of [datetime.utcnow()]. *)

Record TokenManager : Type := {
  token_ttl : Z;
  refresh_ttl : Z
}.

(** [hashlib.sha256(token.encode()).hexdigest()]; a plaintext is given by
    its UTF-8 bytes. *)
Definition _hash_token (token : string) : string := SHA256.hexdigest token.

(** [scopes or []] *)
Definition or_new_list (scopes : value) : M value :=
  let* b := truthy scopes in
  if b then ret scopes
  else let* l := alloc (OList []) in ret (VRef l).

(** The three dict literals of [generate_token]. *)
Definition access_metadata (user_id scopes : value) (expires_at : datetime)
    : gmap string value :=
  <["user_id" := user_id]> (<["scopes" := scopes]>
    (<["type" := VStr "access"]> (<["expires_at" := VDatetime expires_at]> ∅))).

Definition refresh_metadata (user_id scopes : value) (access_hash : string)
    (expires_at : datetime) : gmap string value :=
  <["user_id" := user_id]> (<["scopes" := scopes]>
    (<["access_token_hash" := VStr access_hash]> (<["type" := VStr "refresh"]>
      (<["expires_at" := VDatetime expires_at]> ∅)))).

Definition token_pair (access_token refresh_token : string) (expires_in : Z)
    : gmap string value :=
  <["access_token" := VStr access_token]> (<["refresh_token" := VStr refresh_token]>
    (<["expires_in" := VInt expires_in]> (<["token_type" := VStr "Bearer"]> ∅))).

Definition generate_token (self : TokenManager)
    (access_token refresh_token : string) (now : datetime)
    (user_id scopes : value) : M loc :=
  let access_hash := _hash_token access_token in
  let refresh_hash := _hash_token refresh_token in
  let* access_expires := lift (Datetime.add_seconds now (token_ttl self)) in
  let* refresh_expires := lift (Datetime.add_seconds now (refresh_ttl self)) in
  let* access_scopes := or_new_list scopes in
  let* access_record :=
    alloc (ODict (access_metadata user_id access_scopes access_expires)) in
  let* _ := MemoryTokenStorage.set access_hash access_record in
  let* refresh_scopes := or_new_list scopes in
  let* refresh_record :=
    alloc (ODict (refresh_metadata user_id refresh_scopes access_hash refresh_expires)) in
  let* _ := MemoryTokenStorage.set refresh_hash refresh_record in
  alloc (ODict (token_pair access_token refresh_token (token_ttl self))).

(** [not expires_at or expires_at < datetime.utcnow()] *)
Definition expired (expires_at : value) (now : datetime) : M bool :=
  let* b := truthy expires_at in
  if negb b then ret true else lt_datetime expires_at now.

Definition validate_token (token : string) (now : datetime) : M (option loc) :=
  let token_hash := _hash_token token in
  let* token_data := MemoryTokenStorage.get token_hash in
  match token_data with
  | None => ret None
  | Some td =>
      let* present := truthy (VRef td) in
      if negb present then ret None
      else
        let* d := load_dict td in
        if negb (is_str (dict_get d "type") "access") then ret None
        else
          let* e := expired (dict_get d "expires_at") now in
          if e then
            let* _ := MemoryTokenStorage.delete token_hash in
            ret None
          else ret (Some td)
  end.

Definition refresh_token (self : TokenManager) (refresh_token : string)
    (now : datetime)
    (new_access_token new_refresh_token : string) (now' : datetime)
    : M (option loc) :=
  let refresh_hash := _hash_token refresh_token in
  let* refresh_data := MemoryTokenStorage.get refresh_hash in
  match refresh_data with
  | None => ret None
  | Some rd =>
      let* present := truthy (VRef rd) in
      if negb present then ret None
      else
        let* d := load_dict rd in
        if negb (is_str (dict_get d "type") "refresh") then ret None
        else
          let* e := expired (dict_get d "expires_at") now in
          if e then
            let* _ := MemoryTokenStorage.delete refresh_hash in
            ret None
          else
            let old_access_hash := dict_get d "access_token_hash" in
            let* linked := truthy old_access_hash in
            let* _ :=
              if linked then MemoryTokenStorage.delete_value old_access_hash
              else ret tt in
            let* _ := MemoryTokenStorage.delete refresh_hash in
            (* refresh_data['user_id'] *)
            let* user_id :=
              match d !! "user_id" with
              | Some v => ret v
              | None => raise KeyError
              end in
            (* refresh_data.get('scopes', []) *)
            let* scopes :=
              match d !! "scopes" with
              | Some v => ret v
              | None => let* l := alloc (OList []) in ret (VRef l)
              end in
            let* pair :=
              generate_token self new_access_token new_refresh_token now' user_id scopes in
            ret (Some pair)
  end.

Definition revoke_token (token : string) : M bool :=
  let token_hash := _hash_token token in
  let* token_data := MemoryTokenStorage.get token_hash in
  match token_data with
  | None => ret false
  | Some td =>
      let* present := truthy (VRef td) in
      if negb present then ret false
      else
        let* d := load_dict td in
        let* _ :=
          if is_str (dict_get d "type") "refresh" then
            let access_hash := dict_get d "access_token_hash" in
            let* linked := truthy access_hash in
            if linked then MemoryTokenStorage.delete_value access_hash
            else ret tt
          else ret tt in
        let* _ := MemoryTokenStorage.delete token_hash in
        ret true
  end.


(** ** Observations on a state, used to state the properties *)

(** The dict object stored under [key], as it sits in the backend. *)
Definition stored (st : state) (key : string) : option (gmap string value) :=
  match _store st !! key with
  | Some l =>
      match heap st !! l with
      | Some (ODict d) => Some d
      | _ => None
      end
  | None => None
  end.

(** The dict, resp. the list, a reference denotes in a heap. *)
Definition dict_at (h : list obj) (l : loc) : option (gmap string value) :=
  match h !! l with
  | Some (ODict d) => Some d
  | _ => None
  end.

Definition list_of (h : list obj) (v : value) : option (list string) :=
  match v with
  | VRef l =>
      match h !! l with
      | Some (OList xs) => Some xs
      | _ => None
      end
  | _ => None
  end.

(** What [set] writes for a record [d], and what [get] makes of a stored
    dict [d] ([None]: [fromisoformat] raises). *)
Definition encode (d : gmap string value) : gmap string value :=
  match d !! "expires_at" with
  | Some (VDatetime t) => <["expires_at" := VStr (Datetime.isoformat t)]> d
  | _ => d
  end.

Definition decode (d : gmap string value) : option (gmap string value) :=
  match d !! "expires_at" with
  | Some (VStr s) =>
      match Datetime.fromisoformat s with
      | Some t => Some (<["expires_at" := VDatetime t]> d)
      | None => None
      end
  | _ => Some d
  end.

(** [a <= b] on datetimes *)
Definition at_or_before (a b : datetime) : bool := negb (Datetime.lt b a).

(** ** A concrete run, for examples

    A manager with the default lifetimes, a caller that holds a list of
    scopes, and the states it goes through. *)

Definition demo_manager : TokenManager := {| token_ttl := 3600; refresh_ttl := 86400 |}.

Definition demo_now : datetime := Datetime.Build 2024 2 28 23 59 30 250.

(** [demo_now] plus one hour, resp. one day: the two expiry times. *)
Definition demo_access_expiry : datetime := Datetime.Build 2024 2 29 0 59 30 250.
Definition demo_refresh_expiry : datetime := Datetime.Build 2024 2 29 23 59 30 250.

Definition demo_later : datetime := Datetime.Build 2024 2 29 12 0 0 0.

(** The caller's list [["read"]] sits at location 0. *)
Definition demo_state0 : state := State [OList ["read"%string]] ∅.

(** After [generate_token("u1", ["read"])] has drawn ["A"] and ["R"]. *)
Definition demo_state1 : state :=
  final_state (generate_token demo_manager "A" "R" demo_now (VStr "u1") (VRef 0%nat) demo_state0).

(** After [refresh_token("R")] has drawn ["A2"] and ["R2"]. *)
Definition demo_state2 : state :=
  final_state (refresh_token demo_manager "R" demo_later "A2" "R2" demo_later demo_state1).

(** Whether a call has returned a dict (rather than [None] or an
    exception). *)
Definition succeeded (res : result (option loc)) : bool :=
  match res with
  | Ok (Some _) _ => true
  | _ => false
  end.

(** The field [k] of the dict a call has returned. *)
Definition returned_field (res : result (option loc)) (k : string) : option value :=
  match res with
  | Ok (Some l) st =>
      match dict_at (heap st) l with
      | Some d => d !! k
      | None => None
      end
  | _ => None
  end.

(** What a computation has returned, if it has. *)
Definition returned {A} (res : result A) : option A :=
  match res with
  | Ok a _ => Some a
  | Raise _ _ => None
  end.

Definition demo_expired : datetime := Datetime.Build 2024 3 5 8 0 0 0.

(** *** Callers that keep a reference

    [scopes_of r] reads [r['scopes']] as a list.  The first caller stores a
    record and afterwards appends to the list it had put under [scopes];
    the second appends to the list of a record it got back.  Both then
    read the key again.  The third caller assigns to a field of the
    record it had stored. *)

Definition scopes_of (record : option loc) : M (list string) :=
  match record with
  | Some g =>
      let* d := load_dict g in
      match d !! "scopes" with
      | Some (VRef l) => load_list l
      | _ => raise KeyError
      end
  | None => raise KeyError
  end.

Definition append_after_set : M (list string) :=
  let* scopes := alloc (OList ["read"%string]) in
  let* record :=
    alloc (ODict (access_metadata (VStr "u1") (VRef scopes) demo_access_expiry)) in
  let* _ := MemoryTokenStorage.set "k" record in
  let* _ := list_append scopes "admin" in
  let* got := MemoryTokenStorage.get "k" in
  scopes_of got.

Definition append_to_returned : M (list string) :=
  let* scopes := alloc (OList ["read"%string]) in
  let* record :=
    alloc (ODict (access_metadata (VStr "u1") (VRef scopes) demo_access_expiry)) in
  let* _ := MemoryTokenStorage.set "k" record in
  let* got := MemoryTokenStorage.get "k" in
  let* d :=
    match got with
    | Some g => load_dict g
    | None => raise KeyError
    end in
  let* _ :=
    match d !! "scopes" with
    | Some (VRef l) => list_append l "admin"
    | _ => raise KeyError
    end in
  let* again := MemoryTokenStorage.get "k" in
  scopes_of again.

Definition assign_after_set (key : string) (record : loc) (k : string) (v : value)
    : M (option loc) :=
  let* _ := MemoryTokenStorage.set key record in
  let* _ := dict_setitem record k v in
  MemoryTokenStorage.get key.

(** A lower-case hexadecimal digit. *)
Definition is_lower_hex (c : ascii) : bool :=
  let n := Z.of_nat (nat_of_ascii c) in
  Datetime.between 48 n 57 || Datetime.between 97 n 102.

(** *** More fixtures

    A record as a caller builds it, a caller that holds two records, a
    store with one record under ["k"], and stores with a record that lacks
    a field. *)

Definition demo_record : gmap string value :=
  access_metadata (VStr "u1") VNone demo_access_expiry.

Definition demo_refresh_record : gmap string value :=
  refresh_metadata (VStr "u1") VNone (_hash_token "A") demo_refresh_expiry.

Definition demo_caller : state := State [ODict demo_record; ODict demo_refresh_record] ∅.

Definition demo_stored : state := State [ODict (encode demo_record)] {[ "k"%string := 0%nat ]}.

Definition demo_string_record : gmap string value :=
  <["expires_at"%string := VStr (Datetime.isoformat demo_access_expiry)]> demo_record.

Definition demo_no_expiry : state :=
  State [ODict (<["type"%string := VStr "access"]> (<["user_id"%string := VStr "u1"]> ∅))]
        {[ _hash_token "N" := 0%nat ]}.

Definition demo_no_user : state :=
  State [ODict (encode (base.delete "user_id"%string demo_refresh_record))]
        {[ _hash_token "R" := 0%nat ]}.


(** [demo_later] plus one hour, resp. one day. *)
Definition demo_later_access_expiry : datetime := Datetime.Build 2024 2 29 13 0 0 0.
Definition demo_later_refresh_expiry : datetime := Datetime.Build 2024 3 1 12 0 0 0.

(** * Properties *)

(** ** The hash *)

Example sha256_abc :
  SHA256.hexdigest "abc"
  = "ba7816bf8f01cfea414140de5dae2223b00361a396177a9cb410ff61f20015ad"%string.
Proof. vm_compute. reflexivity. Qed.

Example sha256_empty :
  SHA256.hexdigest ""
  = "e3b0c44298fc1c149afbf4c8996fb92427ae41e4649b934ca495991b7852b855"%string.
Proof. vm_compute. reflexivity. Qed.

Example sha256_two_blocks :
  SHA256.hexdigest "abcdbcdecdefdefgefghfghighijhijkijkljklmklmnlmnomnopnopq"
  = "248d6a61d20638b8e5c026930c3e6039a33ce45964ff2167f6ecedd419db06c1"%string.
Proof. vm_compute. reflexivity. Qed.

(** A digest is never the empty string, so as a value it is true. *)
Lemma hash_token_nonempty (token : string) : String.eqb (_hash_token token) "" = false.
Proof.
  unfold _hash_token, SHA256.hexdigest, SHA256.hex_of_regs.
  generalize (SHA256.digest (SHA256.bytes_of_string token)). intros v.
  unfold SHA256.hex_word at 1. reflexivity.
Qed.

Lemma nibble_bounds (x : Z) : 0 <= Z.land x 15 < 16.
Proof.
  change 15 with (Z.ones 4). rewrite Z.land_ones by lia.
  apply Z.mod_pos_bound. reflexivity.
Qed.

Lemma hex_digit_lower_hex (k : Z) : 0 <= k < 16 -> is_lower_hex (SHA256.hex_digit k) = true.
Proof.
  intros Hk.
  assert (Hcases : k = 0 \/ k = 1 \/ k = 2 \/ k = 3 \/ k = 4 \/ k = 5 \/ k = 6 \/ k = 7 \/
                   k = 8 \/ k = 9 \/ k = 10 \/ k = 11 \/ k = 12 \/ k = 13 \/ k = 14 \/
                   k = 15) by lia.
  repeat (destruct Hcases as [-> | Hcases]; [reflexivity |]).
  subst k. reflexivity.
Qed.

(** X9: a storage key is always 64 characters long, each of them a
    lower-case hexadecimal digit. *)
Theorem hash_token_is_64_hex_digits (token : string) :
  String.length (_hash_token token) = 64%nat /\
  forallb is_lower_hex (list_ascii_of_string (_hash_token token)) = true.
Proof.
  unfold _hash_token, SHA256.hexdigest, SHA256.hex_of_regs.
  generalize (SHA256.digest (SHA256.bytes_of_string token)). intros v.
  unfold SHA256.hex_word. split; [reflexivity|].
  cbn [list_ascii_of_string forallb].
  rewrite !hex_digit_lower_hex by apply nibble_bounds. reflexivity.
Qed.

Global Opaque _hash_token.

(** ** Datetimes: printing and parsing *)

Section DatetimeFacts.
Import Datetime.

Lemma digit_val_char (k : Z) : 0 <= k < 10 -> digit_val (digit_char k) = Some k.
Proof.
  intros Hk.
  assert (Hcases : k = 0 \/ k = 1 \/ k = 2 \/ k = 3 \/ k = 4 \/
                   k = 5 \/ k = 6 \/ k = 7 \/ k = 8 \/ k = 9) by lia.
  repeat (destruct Hcases as [-> | Hcases]; [reflexivity |]).
  subst k. reflexivity.
Qed.

Lemma parse_digits_0 (acc : Z) (s : string) : parse_digits 0 acc s = Some (acc, s).
Proof. reflexivity. Qed.

Lemma parse_dec2 (n : nat) (acc x : Z) (tail : string) :
  0 <= x < 100 ->
  parse_digits (S (S n)) acc (dec2 x tail) = parse_digits n (100 * acc + x) tail.
Proof.
  intros Hx. unfold dec2. cbn [parse_digits].
  rewrite !digit_val_char by (Z.div_mod_to_equations; lia).
  f_equal. Z.div_mod_to_equations. lia.
Qed.

Lemma parse_dec4 (n : nat) (acc x : Z) (tail : string) :
  0 <= x < 10000 ->
  parse_digits (S (S (S (S n)))) acc (dec4 x tail) = parse_digits n (10000 * acc + x) tail.
Proof.
  intros Hx. unfold dec4.
  rewrite !parse_dec2 by (Z.div_mod_to_equations; lia).
  f_equal. Z.div_mod_to_equations. lia.
Qed.

Lemma parse_dec6 (acc x : Z) (tail : string) :
  0 <= x < 1000000 ->
  parse_digits 6 acc (dec6 x tail) = Some (1000000 * acc + x, tail).
Proof.
  intros Hx. unfold dec6.
  rewrite parse_dec2, parse_dec4 by (Z.div_mod_to_equations; lia).
  rewrite parse_digits_0. do 2 f_equal. Z.div_mod_to_equations. lia.
Qed.

Lemma expect_same (c : ascii) (s : string) : expect c (String c s) = Some s.
Proof. unfold expect. rewrite Ascii.eqb_refl. reflexivity. Qed.

Lemma between_spec (lo x hi : Z) : between lo x hi = true <-> lo <= x <= hi.
Proof. unfold between. rewrite andb_true_iff, !Z.leb_le. tauto. Qed.

Lemma days_in_month_le (y m : Z) : days_in_month y m <= 31.
Proof.
  unfold days_in_month, month_entry.
  destruct ((m =? 2) && is_leap y); [lia |].
  destruct (Z.to_nat (m - 1)) as [|[|[|[|[|[|[|[|[|[|[|[|[|k]]]]]]]]]]]]]; cbn; lia.
Qed.

Lemma valid_bounds (d : datetime) :
  valid d = true ->
  1 <= year d <= 9999 /\ 1 <= month d <= 12 /\ 1 <= day d <= 31 /\
  0 <= hour d <= 23 /\ 0 <= minute d <= 59 /\ 0 <= second d <= 59 /\
  0 <= microsecond d <= 999999.
Proof.
  unfold valid. rewrite !andb_true_iff, !between_spec.
  pose proof (days_in_month_le (year d) (month d)).
  unfold MINYEAR, MAXYEAR. lia.
Qed.

(** [fromisoformat] inverts [isoformat] on every datetime the constructor
    accepts. *)
Lemma fromisoformat_isoformat (d : datetime) :
  valid d = true -> fromisoformat (isoformat d) = Some d.
Proof.
  intros Hv. pose proof (valid_bounds d Hv) as (Hy & Hm & Hd & Hh & Hmi & Hs & Hus).
  unfold fromisoformat, isoformat.
  rewrite parse_dec4, parse_digits_0 by lia. cbn [mbind option_bind]. rewrite expect_same.
  cbn [mbind option_bind].
  rewrite parse_dec2, parse_digits_0 by lia. cbn [mbind option_bind]. rewrite expect_same.
  cbn [mbind option_bind].
  rewrite parse_dec2, parse_digits_0 by lia. cbn [mbind option_bind].
  rewrite parse_dec2, parse_digits_0 by lia. cbn [mbind option_bind]. rewrite expect_same.
  cbn [mbind option_bind].
  rewrite parse_dec2, parse_digits_0 by lia. cbn [mbind option_bind]. rewrite expect_same.
  cbn [mbind option_bind].
  rewrite parse_dec2, parse_digits_0 by lia. cbn [mbind option_bind].
  replace (parse_fraction _) with (Some (microsecond d)).
  - cbn [mbind option_bind]. unfold make.
    replace (Build _ _ _ _ _ _ _) with d by (destruct d; cbn; f_equal; lia).
    rewrite Hv. reflexivity.
  - destruct (microsecond d =? 0) eqn:E.
    + apply Z.eqb_eq in E. rewrite E. reflexivity.
    + unfold parse_fraction. cbn [Ascii.eqb Bool.eqb].
      rewrite parse_dec6 by lia. f_equal.
Qed.

End DatetimeFacts.

(** ** Datetimes: the calendar and the order *)

Section Calendar.
Import Datetime.

Lemma below_cases (P : Z -> bool) (n : nat) :
  forallb P (List.map Z.of_nat (seq 0 n)) = true ->
  forall r, 0 <= r < Z.of_nat n -> P r = true.
Proof.
  intros H r Hr. rewrite forallb_forall in H. apply H.
  apply in_map_iff. exists (Z.to_nat r). split; [lia|].
  apply in_seq. lia.
Qed.

Lemma month_and_day_spec (leap : bool) (r : Z) :
  0 <= r < 365 ->
  let '(m, d) := month_and_day leap r in
  1 <= m <= 12 /\ 1 <= d /\
  month_entry DAYS_BEFORE_MONTH m + (if (2 <? m) && leap then 1 else 0) + d = r + 1.
Proof.
  intros Hr.
  pose (P := fun r =>
    let '(m, d) := month_and_day leap r in
    (1 <=? m) && (m <=? 12) && (1 <=? d) &&
    (month_entry DAYS_BEFORE_MONTH m + (if (2 <? m) && leap then 1 else 0) + d =? r + 1)).
  assert (HP : P r = true).
  { apply (below_cases P 365); [|lia]. destruct leap; vm_compute; reflexivity. }
  unfold P in HP. destruct (month_and_day leap r) as [m d].
  rewrite !andb_true_iff, !Z.leb_le, Z.eqb_eq in HP. lia.
Qed.

Lemma days_before_year_succ (y : Z) :
  days_before_year (y + 1) = days_before_year y + 365 + (if is_leap y then 1 else 0).
Proof.
  unfold days_before_year, is_leap.
  replace (y + 1 - 1) with y by lia.
  destruct (Z.eqb_spec (y mod 4) 0), (Z.eqb_spec (y mod 100) 0), (Z.eqb_spec (y mod 400) 0);
    cbn [andb orb negb]; Z.div_mod_to_equations; lia.
Qed.

Lemma days_before_year_mono (y y' : Z) :
  y <= y' -> days_before_year y <= days_before_year y'.
Proof. unfold days_before_year. intros H. Z.div_mod_to_equations. lia. Qed.


Lemma twelve_cases (m : Z) :
  1 <= m <= 12 ->
  m = 1 \/ m = 2 \/ m = 3 \/ m = 4 \/ m = 5 \/ m = 6 \/
  m = 7 \/ m = 8 \/ m = 9 \/ m = 10 \/ m = 11 \/ m = 12.
Proof. lia. Qed.

Ltac each_month H :=
  apply twelve_cases in H;
  repeat (destruct H as [-> | H]); [.. | subst].

(** Evaluates the table entries and tests of a goal about given months. *)
Ltac eval_tables :=
  repeat match goal with
  | |- context [month_entry ?t ?k] =>
      let v := eval vm_compute in (month_entry t k) in
      change (month_entry t k) with v
  | |- context [if ?c then _ else _] =>
      let v := eval vm_compute in c in
      change c with v; cbv iota
  end.

(** A valid day of month [m] falls before the first day of every later
    month, and within the year. *)
Lemma month_order (y m m' d : Z) :
  1 <= m <= 12 -> 1 <= m' <= 12 -> m < m' ->
  d <= days_in_month y m ->
  days_before_month y m + d <= days_before_month y m'.
Proof.
  intros Hm Hm' Hlt Hd. revert Hd Hlt.
  unfold days_before_month, days_in_month.
  destruct (is_leap y); each_month Hm; each_month Hm'; eval_tables; lia.
Qed.

Lemma month_within_year (y m d : Z) :
  1 <= m <= 12 ->
  d <= days_in_month y m ->
  days_before_month y m + d <= 365 + (if is_leap y then 1 else 0).
Proof.
  intros Hm Hd. revert Hd.
  unfold days_before_month, days_in_month.
  destruct (is_leap y); each_month Hm; eval_tables; lia.
Qed.

Lemma days_before_month_nonneg (y m : Z) : 0 <= days_before_month y m.
Proof.
  unfold days_before_month, month_entry.
  assert (0 <= nth (Z.to_nat (m - 1)) DAYS_BEFORE_MONTH 0).
  { destruct (Z.to_nat (m - 1)) as [|[|[|[|[|[|[|[|[|[|[|[|[|k]]]]]]]]]]]]]; cbn; lia. }
  destruct (_ && _); lia.
Qed.

(** The ordinal respects the order of dates. *)
Lemma ymd2ord_lt (y m d y' m' d' : Z) :
  1 <= m <= 12 -> 1 <= d <= days_in_month y m ->
  1 <= m' <= 12 -> 1 <= d' <= days_in_month y' m' ->
  lex_lt [y; m; d] [y'; m'; d'] = true ->
  ymd2ord y m d < ymd2ord y' m' d'.
Proof.
  intros Hm Hd Hm' Hd'. unfold ymd2ord. cbn [lex_lt].
  repeat (rewrite orb_true_iff || rewrite andb_true_iff).
  rewrite !Z.ltb_lt, !Z.eqb_eq.
  intros [Hy | [-> [Hmm | [-> [Hdd | [_ Hf]]]]]].
  - pose proof (month_within_year y m d Hm (proj2 Hd)) as Hw.
    pose proof (days_before_year_succ y) as Hs.
    pose proof (days_before_year_mono (y + 1) y' ltac:(lia)) as Hmono.
    pose proof (days_before_month_nonneg y' m'). lia.
  - pose proof (month_order y' m m' d Hm Hm' Hmm (proj2 Hd)). lia.
  - lia.
  - discriminate.
Qed.

Lemma ymd2ord_ord2ymd (n : Z) :
  1 <= n ->
  let '(y, m, d) := ord2ymd n in ymd2ord y m d = n.
Proof.
  intros Hn. unfold ord2ymd, DI400Y, DI100Y, DI4Y.
  set (n0 := n - 1).
  set (n400 := n0 / 146097). set (r1 := n0 mod 146097).
  set (n100 := r1 / 36524). set (r2 := r1 mod 36524).
  set (n4 := r2 / 1461). set (r3 := r2 mod 1461).
  set (n1 := r3 / 365). set (r4 := r3 mod 365).
  assert (H400 : n0 = 146097 * n400 + r1 /\ 0 <= r1 < 146097).
  { subst n400 r1. Z.div_mod_to_equations. lia. }
  assert (H100 : r1 = 36524 * n100 + r2 /\ 0 <= r2 < 36524 /\ 0 <= n100 <= 4).
  { subst n100 r2. Z.div_mod_to_equations. lia. }
  assert (H4 : r2 = 1461 * n4 + r3 /\ 0 <= r3 < 1461 /\ 0 <= n4 <= 24).
  { subst n4 r3. Z.div_mod_to_equations. lia. }
  assert (H1 : r3 = 365 * n1 + r4 /\ 0 <= r4 < 365 /\ 0 <= n1 <= 4).
  { subst n1 r4. Z.div_mod_to_equations. lia. }
  assert (H0 : 0 <= n400) by (subst n400 n0; Z.div_mod_to_equations; lia).
  clearbody n400 r1 n100 r2 n4 r3 n1 r4.
  assert (Hn0 : n = n0 + 1) by (subst n0; lia). clearbody n0.
  destruct ((n1 =? 4) || (n100 =? 4)) eqn:Elast.
  - apply orb_true_iff in Elast. rewrite !Z.eqb_eq in Elast.
    assert (Hleap : is_leap (n400 * 400 + 1 + n100 * 100 + n4 * 4 + n1 - 1) = true).
    { unfold is_leap.
      destruct (Z.eqb_spec ((n400 * 400 + 1 + n100 * 100 + n4 * 4 + n1 - 1) mod 4) 0),
               (Z.eqb_spec ((n400 * 400 + 1 + n100 * 100 + n4 * 4 + n1 - 1) mod 100) 0),
               (Z.eqb_spec ((n400 * 400 + 1 + n100 * 100 + n4 * 4 + n1 - 1) mod 400) 0);
        cbn [andb orb negb]; try reflexivity; exfalso; Z.div_mod_to_equations; lia. }
    unfold ymd2ord, days_before_month. rewrite Hleap. eval_tables.
    unfold days_before_year. Z.div_mod_to_equations. lia.
  - apply orb_false_iff in Elast. rewrite !Z.eqb_neq in Elast.
    set (leapyear := (n1 =? 3) && (negb (n4 =? 24) || (n100 =? 3))).
    pose proof (month_and_day_spec leapyear r4 ltac:(lia)) as Hmd.
    destruct (month_and_day leapyear r4) as [m d].
    destruct Hmd as (Hm & Hd & Hsum).
    assert (Hleap : is_leap (n400 * 400 + 1 + n100 * 100 + n4 * 4 + n1) = leapyear).
    { subst leapyear. unfold is_leap.
      destruct (Z.eqb_spec n1 3), (Z.eqb_spec n4 24), (Z.eqb_spec n100 3);
      destruct (Z.eqb_spec ((n400 * 400 + 1 + n100 * 100 + n4 * 4 + n1) mod 4) 0),
               (Z.eqb_spec ((n400 * 400 + 1 + n100 * 100 + n4 * 4 + n1) mod 100) 0),
               (Z.eqb_spec ((n400 * 400 + 1 + n100 * 100 + n4 * 4 + n1) mod 400) 0);
        cbn [andb orb negb]; try reflexivity; exfalso; Z.div_mod_to_equations; lia. }
    unfold ymd2ord, days_before_month. rewrite Hleap.
    assert (Hdby : days_before_year (n400 * 400 + 1 + n100 * 100 + n4 * 4 + n1) = n0 - r4).
    { unfold days_before_year. Z.div_mod_to_equations. lia. }
    lia.
Qed.


Lemma valid_fields (t : datetime) :
  valid t = true ->
  1 <= month t <= 12 /\ 1 <= day t <= days_in_month (year t) (month t) /\
  0 <= hour t <= 23 /\ 0 <= minute t <= 59 /\ 0 <= second t <= 59.
Proof.
  unfold valid. rewrite !andb_true_iff, !between_spec. lia.
Qed.

(** Adding a non-negative number of seconds never gives an earlier
    datetime. *)
Lemma add_seconds_not_before (now e : datetime) (secs : Z) :
  valid now = true ->
  0 <= secs ->
  add_seconds now secs = inr e ->
  lt e now = false.
Proof.
  intros Hv Hsecs. unfold add_seconds.
  destruct (valid_fields now Hv) as (Hm & Hd & Hh & Hmi & Hs).
  set (total := toordinal now * 86400 + hour now * 3600 + minute now * 60 + second now + secs).
  destruct ((0 <? total / 86400) && (total / 86400 <=? MAXORDINAL)) eqn:Hrange; [|discriminate].
  apply andb_true_iff in Hrange as [Hpos _]. apply Z.ltb_lt in Hpos.
  pose proof (ymd2ord_ord2ymd (total / 86400) ltac:(lia)) as Hord.
  destruct (ord2ymd (total / 86400)) as [[y' m'] d'].
  unfold make.
  match goal with |- context [valid ?x] => destruct (valid x) eqn:Hv' end; [|discriminate].
  intros [= <-].
  destruct (valid_fields _ Hv') as (Hm' & Hd' & Hh' & Hmi' & Hs').
  cbn [year month day hour minute second] in Hm', Hd', Hh', Hmi', Hs'.
  destruct (lt _ now) eqn:E; [exfalso|reflexivity].
  unfold lt, fields in E. cbn [year month day hour minute second microsecond lex_lt] in E.
  repeat (rewrite orb_true_iff in E || rewrite andb_true_iff in E).
  rewrite !Z.ltb_lt, !Z.eqb_eq in E.
  unfold toordinal in total.
  assert (Hdate : forall b, lex_lt [y'; m'; d'] [year now; month now; day now] = b ->
                            b = true -> False).
  { intros b Hb ->. apply ymd2ord_lt in Hb; try assumption.
    subst total. Z.div_mod_to_equations. lia. }
  cbn [lex_lt] in Hdate.
  destruct E as [E | [Ey [E | [Em [E | [Ed E]]]]]].
  - apply (Hdate _ eq_refl). apply Z.ltb_lt in E. rewrite E. reflexivity.
  - apply (Hdate _ eq_refl). subst y'. apply Z.ltb_lt in E.
    rewrite E, Z.eqb_refl, orb_true_r. reflexivity.
  - apply (Hdate _ eq_refl). subst y' m'. apply Z.ltb_lt in E.
    rewrite E, !Z.eqb_refl, !orb_true_r. reflexivity.
  - subst y' m' d'. subst total. Z.div_mod_to_equations. lia.
Qed.

End Calendar.

(** ** Running computations *)

Lemma bind_ok {A B} (m : M A) (k : A -> M B) (st st' : state) (a : A) :
  m st = Ok a st' -> bind m k st = k a st'.
Proof. intros H. unfold bind. rewrite H. reflexivity. Qed.

Lemma bind_raise {A B} (m : M A) (k : A -> M B) (st st' : state) (e : exn) :
  m st = Raise e st' -> bind m k st = Raise e st'.
Proof. intros H. unfold bind. rewrite H. reflexivity. Qed.

(** ** The heap only grows under allocation *)

Lemma lookup_new (h : list obj) (o : obj) : (h ++ [o]) !! List.length h = Some o.
Proof. apply list_lookup_middle. reflexivity. Qed.

Lemma lookup_old (h k : list obj) (l : loc) (o : obj) :
  h !! l = Some o -> (h ++ k) !! l = Some o.
Proof. apply lookup_app_l_Some. Qed.

Lemma insert_new (h : list obj) (o o' : obj) :
  <[List.length h := o']> (h ++ [o]) = h ++ [o'].
Proof.
  rewrite insert_app_r_alt by reflexivity.
  rewrite Nat.sub_diag. reflexivity.
Qed.

Lemma prefix_snoc (h k : list obj) (o : obj) : h `prefix_of` k -> h `prefix_of` k ++ [o].
Proof. intros H. apply prefix_app_r. exact H. Qed.

Lemma prefix_lookup (h k : list obj) (l : loc) (o : obj) :
  h `prefix_of` k -> h !! l = Some o -> k !! l = Some o.
Proof. intros [t ->] H. apply lookup_old. exact H. Qed.

(** ** [MemoryTokenStorage]: what each method does to the state *)

Section StorageFacts.
Import MemoryTokenStorage.

Lemma set_eq (key : string) (l : loc) (d : gmap string value) (st : state) :
heap st !! l = Some (ODict d) ->
set key l st
= Ok tt (State (heap st ++ [ODict (encode d)])
               (<[key := List.length (heap st)]> (_store st))).
Proof.
intros Hl. unfold set, bind, load_dict, alloc, encode. rewrite Hl. cbn [heap _store].
destruct (d !! "expires_at"%string) as [[ | | |t| ]|] eqn:E; try reflexivity.
unfold dict_setitem, bind, load_dict, store_setitem. cbn [heap _store].
rewrite lookup_new. cbn [heap _store]. rewrite insert_new. reflexivity.
Qed.

Lemma get_absent (key : string) (st : state) :
_store st !! key = None -> get key st = Ok None st.
Proof. intros H. unfold get. rewrite H. reflexivity. Qed.

Lemma get_eq (key : string) (l : loc) (d : gmap string value) (st : state) :
_store st !! key = Some l ->
heap st !! l = Some (ODict d) ->
get key st
= match decode d with
  | Some r => Ok (Some (List.length (heap st))) (State (heap st ++ [ODict r]) (_store st))
  | None => Raise ValueError (State (heap st ++ [ODict d]) (_store st))
  end.
Proof.
intros Hk Hl. unfold get. rewrite Hk.
unfold bind, load_dict, alloc, decode. rewrite Hl. cbn [heap _store].
destruct (d !! "expires_at"%string) as [[ | |s| | ]|] eqn:E; try reflexivity.
destruct (Datetime.fromisoformat s) as [t|]; [|reflexivity].
unfold dict_setitem, bind, load_dict, ret. cbn [heap _store].
rewrite lookup_new. cbn [heap _store]. rewrite insert_new. reflexivity.
Qed.

Lemma get_stored (key : string) (d : gmap string value) (st : state) :
stored st key = Some d ->
get key st
= match decode d with
  | Some r => Ok (Some (List.length (heap st))) (State (heap st ++ [ODict r]) (_store st))
  | None => Raise ValueError (State (heap st ++ [ODict d]) (_store st))
  end.
Proof.
unfold stored. destruct (_store st !! key) as [l|] eqn:Hk; [|discriminate].
destruct (heap st !! l) as [[d'|]|] eqn:Hl; try discriminate.
intros [= ->]. eapply get_eq; eassumption.
Qed.

(** A successful lookup returns a fresh copy and leaves everything else
  as it was. *)
Lemma get_Some_inv (key : string) (st st1 : state) (l : loc) :
get key st = Ok (Some l) st1 ->
exists d r,
  stored st key = Some d /\ decode d = Some r /\
  l = List.length (heap st) /\ st1 = State (heap st ++ [ODict r]) (_store st).
Proof.
unfold get, stored. destruct (_store st !! key) as [l0|] eqn:Hk; [|discriminate].
unfold bind at 1, load_dict at 1.
destruct (heap st !! l0) as [[d|]|] eqn:Hl; try discriminate.
intros H. pose proof (get_eq key l0 d st Hk Hl) as Hg.
unfold get in Hg. rewrite Hk in Hg. unfold bind at 1, load_dict at 1 in Hg.
rewrite Hl in Hg. rewrite Hg in H.
destruct (decode d) as [r|] eqn:Hd; [|discriminate].
injection H as <- <-. exists d, r. auto.
Qed.

Lemma get_None_inv (key : string) (st st1 : state) :
get key st = Ok None st1 -> _store st !! key = None /\ st1 = st.
Proof.
unfold get. destruct (_store st !! key) as [l0|] eqn:Hk.
- unfold bind at 1, load_dict at 1.
  destruct (heap st !! l0) as [[d|]|] eqn:Hl; try discriminate.
  intros H. pose proof (get_eq key l0 d st Hk Hl) as Hg.
  unfold get in Hg. rewrite Hk in Hg. unfold bind at 1, load_dict at 1 in Hg.
  rewrite Hl in Hg. rewrite Hg in H.
  destruct (decode d); discriminate.
- intros [= <-]. auto.
Qed.

Lemma delete_eq (key : string) (st : state) :
delete key st = Ok tt (State (heap st) (base.delete key (_store st))).
Proof. reflexivity. Qed.

(** Writing a record and reading it back gives the record: the ISO string
  stands for exactly the datetime that was written. *)
Lemma decode_encode (d : gmap string value) :
match d !! "expires_at"%string with
| Some (VDatetime t) => Datetime.valid t = true
| Some (VStr _) => False
| _ => True
end ->
decode (encode d) = Some d.
Proof.
unfold decode, encode.
destruct (d !! "expires_at"%string) as [[ | | |t| ]|] eqn:E; intros H;
  try (rewrite E; reflexivity); try contradiction.
rewrite lookup_insert_eq. rewrite (fromisoformat_isoformat t H).
rewrite insert_insert_eq. rewrite insert_id by exact E. reflexivity.
Qed.

End StorageFacts.

(** ** Truth values *)

Lemma size_nonzero (d : gmap string value) (k : string) (v : value) :
  d !! k = Some v -> Nat.eqb (size d) 0 = false.
Proof.
  intros H. apply Nat.eqb_neq. intros Hz.
  apply map_size_empty_iff in Hz. subst d. rewrite lookup_empty in H. discriminate.
Qed.

Lemma truthy_dict (h : list obj) (l : loc) (d : gmap string value) (k : string) (v : value) :
  h !! l = Some (ODict d) -> d !! k = Some v -> truthy_in h (VRef l) = true.
Proof.
  intros Hl Hk. unfold truthy_in. rewrite Hl, (size_nonzero d k v Hk). reflexivity.
Qed.

Lemma truthy_hash (h : list obj) (token : string) :
  truthy_in h (VStr (_hash_token token)) = true.
Proof. unfold truthy_in. rewrite hash_token_nonempty. reflexivity. Qed.

Lemma dict_get_Some (d : gmap string value) (k : string) (v : value) :
  d !! k = Some v -> dict_get d k = v.
Proof. intros H. unfold dict_get. rewrite H. reflexivity. Qed.

(** ** The token manager on a record that is found

    Each of the three methods starts with the same lookup; these lemmas
    say how it goes on once the lookup has returned the copy [r]. *)

Section Found.
Variables (key : string) (st st1 : state) (td : loc) (r : gmap string value).
Hypothesis Hget : MemoryTokenStorage.get key st = Ok (Some td) st1.
Hypothesis Hr : dict_at (heap st1) td = Some r.

Lemma found_heap : heap st1 !! td = Some (ODict r).
Proof.
unfold dict_at in Hr. destruct (heap st1 !! td) as [[d|]|]; try discriminate.
injection Hr as ->. reflexivity.
Qed.

Lemma found_store : _store st1 = _store st.
Proof. apply get_Some_inv in Hget as (d & r' & _ & _ & _ & ->). reflexivity. Qed.

Lemma found_prefix : heap st `prefix_of` heap st1.
Proof.
apply get_Some_inv in Hget as (d & r' & _ & _ & _ & ->).
cbn [heap]. apply prefix_app_r. reflexivity.
Qed.

Lemma found_present (k : string) (v : value) :
r !! k = Some v -> truthy (VRef td) st1 = Ok true st1.
Proof.
intros Hk. unfold truthy. rewrite (truthy_dict _ _ _ _ _ found_heap Hk). reflexivity.
Qed.

Lemma found_load : load_dict td st1 = Ok r st1.
Proof. unfold load_dict. rewrite found_heap. reflexivity. Qed.

End Found.

(** ** Revoking a token that has no record *)

(** C6: when the hash of the plaintext has no record in the store,
    [revoke_token] returns [False] without raising, and the state it
    leaves is the state it found. *)
Theorem revoke_token_absent (token : string) (st : state) :
  _store st !! _hash_token token = None ->
  revoke_token token st = Ok false st.
Proof.
  intros Habs. unfold revoke_token.
  rewrite (bind_ok _ _ _ _ _ (get_absent _ _ Habs)). reflexivity.
Qed.

(** ** Expired and wrong-kind records *)

Lemma validate_token_expired_found (token : string) (now e : datetime)
    (st st1 : state) (td : loc) (r : gmap string value) :
  MemoryTokenStorage.get (_hash_token token) st = Ok (Some td) st1 ->
  dict_at (heap st1) td = Some r ->
  r !! "type"%string = Some (VStr "access") ->
  r !! "expires_at"%string = Some (VDatetime e) ->
  Datetime.lt e now = true ->
  exists st2,
    validate_token token now st = Ok None st2 /\
    _store st2 = base.delete (_hash_token token) (_store st) /\
    MemoryTokenStorage.get (_hash_token token) st2 = Ok None st2.
Proof.
  intros Hget Hr Hty Hexp Hlt.
  eexists. split; [|split].
  - unfold validate_token.
    rewrite (bind_ok _ _ _ _ _ Hget).
    erewrite bind_ok by (eapply found_present; eassumption). cbn [negb].
    erewrite bind_ok by (eapply found_load; eassumption).
    rewrite (dict_get_Some _ _ _ Hty), (dict_get_Some _ _ _ Hexp).
    cbn [is_str String.eqb Ascii.eqb Bool.eqb negb].
    unfold expired, bind, truthy, lt_datetime, ret, MemoryTokenStorage.delete.
    cbn [truthy_in negb]. rewrite Hlt. reflexivity.
  - cbn [_store]. erewrite found_store by eassumption. reflexivity.
  - apply get_absent. cbn [_store]. apply lookup_delete_eq.
Qed.

Lemma wrong_kind_found (self : TokenManager) (token : string) (now : datetime)
    (new_access new_refresh : string) (now' : datetime)
    (st st1 : state) (td : loc) (r : gmap string value) :
  MemoryTokenStorage.get (_hash_token token) st = Ok (Some td) st1 ->
  dict_at (heap st1) td = Some r ->
  (r !! "type"%string = Some (VStr "refresh") ->
   validate_token token now st = Ok None st1) /\
  (r !! "type"%string = Some (VStr "access") ->
   refresh_token self token now new_access new_refresh now' st = Ok None st1).
Proof.
  intros Hget Hr. split.
  - intros Hty. unfold validate_token.
    rewrite (bind_ok _ _ _ _ _ Hget).
    erewrite bind_ok by (eapply found_present; eassumption). cbn [negb].
    erewrite bind_ok by (eapply found_load; eassumption).
    rewrite (dict_get_Some _ _ _ Hty). reflexivity.
  - intros Hty. unfold refresh_token.
    rewrite (bind_ok _ _ _ _ _ Hget).
    erewrite bind_ok by (eapply found_present; eassumption). cbn [negb].
    erewrite bind_ok by (eapply found_load; eassumption).
    rewrite (dict_get_Some _ _ _ Hty). reflexivity.
Qed.

Lemma refresh_token_expired_found (self : TokenManager)
    (token : string) (now e : datetime)
    (new_access new_refresh : string) (now' : datetime)
    (st st1 : state) (td : loc) (r : gmap string value) :
  MemoryTokenStorage.get (_hash_token token) st = Ok (Some td) st1 ->
  dict_at (heap st1) td = Some r ->
  r !! "type"%string = Some (VStr "refresh") ->
  r !! "expires_at"%string = Some (VDatetime e) ->
  Datetime.lt e now = true ->
  exists st2,
    refresh_token self token now new_access new_refresh now' st = Ok None st2 /\
    _store st2 = base.delete (_hash_token token) (_store st) /\
    heap st `prefix_of` heap st2 /\
    (forall k d, k <> _hash_token token -> stored st k = Some d -> stored st2 k = Some d).
Proof.
  intros Hget Hr Hty Hexp Hlt.
  assert (Hs : _store st1 = _store st) by (eapply found_store; eassumption).
  assert (Hp : heap st `prefix_of` heap st1) by (eapply found_prefix; eassumption).
  eexists. split; [|split; [|split]].
  - unfold refresh_token.
    rewrite (bind_ok _ _ _ _ _ Hget).
    erewrite bind_ok by (eapply found_present; eassumption). cbn [negb].
    erewrite bind_ok by (eapply found_load; eassumption).
    rewrite (dict_get_Some _ _ _ Hty), (dict_get_Some _ _ _ Hexp).
    cbn [is_str String.eqb Ascii.eqb Bool.eqb negb].
    unfold expired, bind, truthy, lt_datetime, ret, MemoryTokenStorage.delete.
    cbn [truthy_in negb]. rewrite Hlt. reflexivity.
  - cbn [_store]. rewrite Hs. reflexivity.
  - exact Hp.
  - intros k d Hk. unfold stored. cbn [heap _store]. rewrite Hs.
    rewrite lookup_delete_ne by congruence.
    destruct (_store st !! k) as [l|]; [|discriminate].
    destruct (heap st !! l) as [o|] eqn:Hl; [|discriminate].
    rewrite (prefix_lookup _ _ _ _ Hp Hl). trivial.
Qed.

(** ** Timestamps through the store *)

(** C8: a record with a datetime under [expires_at], written with [set]
    and read back with [get], comes back with the very same datetime (and
    indeed as the very same record); nothing is lost in the ISO string. *)
Theorem set_get_expires_at (key : string) (l : loc) (d : gmap string value)
    (t : datetime) (st : state) :
  heap st !! l = Some (ODict d) ->
  d !! "expires_at"%string = Some (VDatetime t) ->
  Datetime.valid t = true ->
  exists st1 l' st2 r,
    MemoryTokenStorage.set key l st = Ok tt st1 /\
    MemoryTokenStorage.get key st1 = Ok (Some l') st2 /\
    dict_at (heap st2) l' = Some r /\
    r !! "expires_at"%string = Some (VDatetime t) /\
    r = d.
Proof.
  intros Hl Ht Hv.
  assert (Hde : decode (encode d) = Some d) by (apply decode_encode; rewrite Ht; exact Hv).
  do 3 eexists. exists d. split; [|split; [|split; [|split]]].
  - apply set_eq. exact Hl.
  - erewrite get_eq.
    + rewrite Hde. reflexivity.
    + cbn [_store]. apply lookup_insert_eq.
    + cbn [heap]. apply lookup_new.
  - unfold dict_at. cbn [heap]. rewrite lookup_new. reflexivity.
  - exact Ht.
  - reflexivity.
Qed.

(** ** [generate_token] *)

Lemma list_of_prefix (h h' : list obj) (v : value) (xs : list string) :
  h `prefix_of` h' -> list_of h v = Some xs -> list_of h' v = Some xs.
Proof.
  intros Hp. unfold list_of. destruct v as [ | | | |l]; try discriminate.
  destruct (h !! l) as [o|] eqn:Hl; [|discriminate].
  rewrite (prefix_lookup _ _ _ _ Hp Hl). trivial.
Qed.

(** [scopes or []]: the list given, or a new empty one; in both cases a
    list with the contents of the one given. *)
Lemma or_new_list_spec (scopes : value) (st : state) :
  exists v st',
    or_new_list scopes st = Ok v st' /\
    _store st' = _store st /\
    heap st `prefix_of` heap st' /\
    (forall xs, list_of (heap st) scopes = Some xs -> list_of (heap st') v = Some xs) /\
    (scopes = VNone -> list_of (heap st') v = Some []).
Proof.
  unfold or_new_list, bind, truthy.
  destruct (truthy_in (heap st) scopes) eqn:Ht.
  - exists scopes, st. repeat split; try reflexivity; try tauto.
    intros ->. discriminate.
  - do 2 eexists. split; [reflexivity|]. cbn [heap _store].
    assert (Hnew : list_of (heap st ++ [OList []]) (VRef (List.length (heap st))) = Some []).
    { unfold list_of. rewrite lookup_new. reflexivity. }
    repeat split.
    + apply prefix_app_r. reflexivity.
    + intros xs Hxs. rewrite Hnew. rewrite <- Hxs. clear Hnew.
      unfold list_of, truthy_in in *. destruct scopes as [ | | | |l]; try discriminate.
      destruct (heap st !! l) as [[d|ys]|]; try discriminate.
      destruct ys; [reflexivity | discriminate].
    + intros _. exact Hnew.
Qed.

Lemma add_seconds_valid (d e : datetime) (secs : Z) :
  Datetime.add_seconds d secs = inr e -> Datetime.valid e = true.
Proof.
  unfold Datetime.add_seconds.
  destruct (_ && _); [|discriminate].
  destruct (Datetime.ord2ymd _) as [[y m] dd].
  unfold Datetime.make.
  match goal with |- context [Datetime.valid ?x] => destruct (Datetime.valid x) eqn:Hv end;
    [|discriminate].
  intros [= <-]. exact Hv.
Qed.

Lemma access_metadata_lookups (uid sc : value) (e : datetime) :
  access_metadata uid sc e !! "user_id"%string = Some uid /\
  access_metadata uid sc e !! "scopes"%string = Some sc /\
  access_metadata uid sc e !! "type"%string = Some (VStr "access") /\
  access_metadata uid sc e !! "expires_at"%string = Some (VDatetime e).
Proof. repeat split; reflexivity. Qed.

Lemma refresh_metadata_lookups (uid sc : value) (ah : string) (e : datetime) :
  refresh_metadata uid sc ah e !! "user_id"%string = Some uid /\
  refresh_metadata uid sc ah e !! "scopes"%string = Some sc /\
  refresh_metadata uid sc ah e !! "access_token_hash"%string = Some (VStr ah) /\
  refresh_metadata uid sc ah e !! "type"%string = Some (VStr "refresh") /\
  refresh_metadata uid sc ah e !! "expires_at"%string = Some (VDatetime e).
Proof. repeat split; reflexivity. Qed.

Lemma decode_access (uid sc : value) (e : datetime) :
  Datetime.valid e = true ->
  decode (encode (access_metadata uid sc e)) = Some (access_metadata uid sc e).
Proof.
  intros Hv. apply decode_encode.
  destruct (access_metadata_lookups uid sc e) as (_ & _ & _ & ->). exact Hv.
Qed.

Lemma decode_refresh (uid sc : value) (ah : string) (e : datetime) :
  Datetime.valid e = true ->
  decode (encode (refresh_metadata uid sc ah e)) = Some (refresh_metadata uid sc ah e).
Proof.
  intros Hv. apply decode_encode.
  destruct (refresh_metadata_lookups uid sc ah e) as (_ & _ & _ & _ & ->). exact Hv.
Qed.

(** When the two expiry times are representable, [generate_token] returns
    normally; it writes exactly the two keys, allocates and changes no
    existing object. *)
Lemma generate_token_spec (self : TokenManager) (a r : string) (now e1 e2 : datetime)
    (uid scopes : value) (st : state) :
  Datetime.add_seconds now (token_ttl self) = inr e1 ->
  Datetime.add_seconds now (refresh_ttl self) = inr e2 ->
  exists pair st' sa sr la lr,
    generate_token self a r now uid scopes st = Ok pair st' /\
    heap st `prefix_of` heap st' /\
    _store st' = <[_hash_token r := lr]> (<[_hash_token a := la]> (_store st)) /\
    heap st' !! la = Some (ODict (encode (access_metadata uid sa e1))) /\
    heap st' !! lr = Some (ODict (encode (refresh_metadata uid sr (_hash_token a) e2))) /\
    heap st' !! pair = Some (ODict (token_pair a r (token_ttl self))) /\
    (forall xs, list_of (heap st) scopes = Some xs ->
                list_of (heap st') sa = Some xs /\ list_of (heap st') sr = Some xs) /\
    (scopes = VNone -> list_of (heap st') sa = Some [] /\ list_of (heap st') sr = Some []).
Proof.
  intros H1 H2. unfold generate_token. rewrite H1, H2. cbn [lift].
  do 2 (erewrite bind_ok by reflexivity).
  destruct (or_new_list_spec scopes st) as (sa & sta & Hoa & Hsa & Hpa & Hxa & Hna).
  rewrite (bind_ok _ _ _ _ _ Hoa).
  erewrite bind_ok by reflexivity.
  erewrite bind_ok by (apply set_eq; cbn [heap]; apply lookup_new).
  cbn [heap _store].
  match goal with
  | |- context [bind (or_new_list scopes) _ ?s] =>
      destruct (or_new_list_spec scopes s) as (sr & str & Hor & Hsr & Hpr & Hxr & Hnr)
  end.
  cbn [heap _store] in *.
  rewrite (bind_ok _ _ _ _ _ Hor).
  erewrite bind_ok by reflexivity.
  erewrite bind_ok by (apply set_eq; cbn [heap]; apply lookup_new).
  cbn [heap _store].
  unfold alloc. cbn [heap _store].
  assert (Hp1 : heap st `prefix_of` heap str).
  { etransitivity; [exact Hpa|]. etransitivity; [|exact Hpr].
    rewrite <- app_assoc. apply prefix_app_r. reflexivity. }
  assert (Hp2 : heap str `prefix_of`
                  ((heap str ++ [ODict (refresh_metadata uid sr (_hash_token a) e2)])
                     ++ [ODict (encode (refresh_metadata uid sr (_hash_token a) e2))])
                     ++ [ODict (token_pair a r (token_ttl self))]).
  { rewrite <- !app_assoc. apply prefix_app_r. reflexivity. }
  eexists _, _, sa, sr, _, _. split; [reflexivity|]. cbn [heap _store].
  split; [etransitivity; eassumption|].
  split; [rewrite Hsr; cbn [_store]; rewrite Hsa; reflexivity|].
  split.
  { eapply prefix_lookup; [exact Hp2|]. eapply prefix_lookup; [exact Hpr|]. apply lookup_new. }
  split.
  { apply lookup_old. apply lookup_new. }
  split.
  { apply lookup_new. }
  split.
  - intros xs Hxs. split.
    + eapply list_of_prefix; [exact Hp2|]. eapply list_of_prefix; [exact Hpr|].
      eapply list_of_prefix; [|apply Hxa; exact Hxs].
      rewrite <- app_assoc. apply prefix_app_r. reflexivity.
    + eapply list_of_prefix; [exact Hp2|]. apply Hxr.
      eapply list_of_prefix; [|exact Hxs].
      etransitivity; [exact Hpa|]. rewrite <- app_assoc. apply prefix_app_r. reflexivity.
  - intros Hn. split.
    + eapply list_of_prefix; [exact Hp2|]. eapply list_of_prefix; [exact Hpr|].
      eapply list_of_prefix; [|apply Hna; exact Hn].
      rewrite <- app_assoc. apply prefix_app_r. reflexivity.
    + eapply list_of_prefix; [exact Hp2|]. apply Hnr. exact Hn.
Qed.

Lemma bind_inv {A B} (m : M A) (k : A -> M B) (st st' : state) (b : B) :
  bind m k st = Ok b st' -> exists a st0, m st = Ok a st0 /\ k a st0 = Ok b st'.
Proof.
  unfold bind. destruct (m st) as [a st0|e st0]; [|discriminate].
  intros H. exists a, st0. auto.
Qed.

Lemma generate_token_inv (self : TokenManager) (a r : string) (now : datetime)
    (uid scopes : value) (st st' : state) (pair : loc) :
  generate_token self a r now uid scopes st = Ok pair st' ->
  exists e1 e2,
    Datetime.add_seconds now (token_ttl self) = inr e1 /\
    Datetime.add_seconds now (refresh_ttl self) = inr e2.
Proof.
  unfold generate_token. intros H.
  apply bind_inv in H as (e1 & s1 & H1 & H).
  apply bind_inv in H as (e2 & s2 & H2 & _).
  exists e1, e2. split.
  - destruct (Datetime.add_seconds now (token_ttl self)); [discriminate|].
    injection H1 as -> _. reflexivity.
  - destruct (Datetime.add_seconds now (refresh_ttl self)); [discriminate|].
    injection H2 as -> _. reflexivity.
Qed.

(** ** The token manager on a record that is found and in date *)

Section FoundValid.
Variables (token : string) (now e : datetime).
Variables (st st1 : state) (td : loc) (r : gmap string value).
Hypothesis Hget : MemoryTokenStorage.get (_hash_token token) st = Ok (Some td) st1.
Hypothesis Hr : dict_at (heap st1) td = Some r.

(** An Access record that has not expired is returned. *)
Lemma validate_token_valid :
r !! "type"%string = Some (VStr "access") ->
r !! "expires_at"%string = Some (VDatetime e) ->
Datetime.lt e now = false ->
validate_token token now st = Ok (Some td) st1.
Proof using Hget Hr.
intros Hty Hexp Hlt. unfold validate_token.
rewrite (bind_ok _ _ _ _ _ Hget).
erewrite bind_ok by (eapply found_present; eassumption). cbn [negb].
erewrite bind_ok by (eapply found_load; eassumption).
rewrite (dict_get_Some _ _ _ Hty), (dict_get_Some _ _ _ Hexp).
cbn [is_str String.eqb Ascii.eqb Bool.eqb negb].
unfold expired, bind, truthy, lt_datetime, ret.
cbn [truthy_in negb]. rewrite Hlt. reflexivity.
Qed.

(** Revoking an Access record removes its key. *)
Lemma revoke_token_access :
r !! "type"%string = Some (VStr "access") ->
revoke_token token st
= Ok true (State (heap st1) (base.delete (_hash_token token) (_store st))).
Proof using Hget Hr.
intros Hty. unfold revoke_token.
rewrite (bind_ok _ _ _ _ _ Hget).
erewrite bind_ok by (eapply found_present; eassumption). cbn [negb].
erewrite bind_ok by (eapply found_load; eassumption).
rewrite (dict_get_Some _ _ _ Hty).
cbn [is_str String.eqb Ascii.eqb Bool.eqb].
unfold bind, ret, MemoryTokenStorage.delete.
erewrite (found_store _ st st1) by eassumption. reflexivity.
Qed.

(** Revoking a Refresh record removes the key of the access record it
  links to, then its own. *)
Lemma revoke_token_refresh (access : string) :
r !! "type"%string = Some (VStr "refresh") ->
r !! "access_token_hash"%string = Some (VStr (_hash_token access)) ->
revoke_token token st
= Ok true (State (heap st1)
             (base.delete (_hash_token token)
                (base.delete (_hash_token access) (_store st)))).
Proof using Hget Hr.
intros Hty Hlink. unfold revoke_token.
rewrite (bind_ok _ _ _ _ _ Hget).
erewrite bind_ok by (eapply found_present; eassumption). cbn [negb].
erewrite bind_ok by (eapply found_load; eassumption).
rewrite (dict_get_Some _ _ _ Hty), (dict_get_Some _ _ _ Hlink).
cbn [is_str String.eqb Ascii.eqb Bool.eqb].
unfold bind, ret, truthy, MemoryTokenStorage.delete_value, MemoryTokenStorage.delete.
rewrite truthy_hash. cbn [heap _store].
erewrite (found_store _ st st1) by eassumption. reflexivity.
Qed.

End FoundValid.

(** Everything that is known of a state left by a successful
    [generate_token]. *)
Lemma generate_token_post (self : TokenManager) (a r : string) (now : datetime)
    (uid scopes : value) (st st' : state) (pair : loc) :
  generate_token self a r now uid scopes st = Ok pair st' ->
  exists e1 e2 sa sr la lr,
    Datetime.add_seconds now (token_ttl self) = inr e1 /\
    Datetime.add_seconds now (refresh_ttl self) = inr e2 /\
    heap st `prefix_of` heap st' /\
    _store st' = <[_hash_token r := lr]> (<[_hash_token a := la]> (_store st)) /\
    heap st' !! la = Some (ODict (encode (access_metadata uid sa e1))) /\
    heap st' !! lr = Some (ODict (encode (refresh_metadata uid sr (_hash_token a) e2))) /\
    heap st' !! pair = Some (ODict (token_pair a r (token_ttl self))) /\
    (forall xs, list_of (heap st) scopes = Some xs ->
                list_of (heap st') sa = Some xs /\ list_of (heap st') sr = Some xs) /\
    (scopes = VNone -> list_of (heap st') sa = Some [] /\ list_of (heap st') sr = Some []).
Proof.
  intros H. destruct (generate_token_inv _ _ _ _ _ _ _ _ _ H) as (e1 & e2 & H1 & H2).
  destruct (generate_token_spec self a r now e1 e2 uid scopes st H1 H2)
    as (pair' & st'' & sa & sr & la & lr & Hg & Hrest).
  rewrite Hg in H. injection H as -> ->.
  exists e1, e2, sa, sr, la, lr. tauto.
Qed.

Lemma get_encoded (key : string) (l : loc) (m : gmap string value) (st : state) :
  _store st !! key = Some l ->
  heap st !! l = Some (ODict (encode m)) ->
  decode (encode m) = Some m ->
  MemoryTokenStorage.get key st
  = Ok (Some (List.length (heap st))) (State (heap st ++ [ODict m]) (_store st)).
Proof. intros Hk Hl Hd. rewrite (get_eq _ _ _ _ Hk Hl), Hd. reflexivity. Qed.

(** A fresh access token validates, and what [validate_token] returns is
    the record [generate_token] has written. *)
Lemma generate_validate (self : TokenManager) (a r : string) (now now' : datetime)
    (uid scopes : value) (st st1 : state) (pair : loc) (e1 : datetime) :
  generate_token self a r now uid scopes st = Ok pair st1 ->
  _hash_token a <> _hash_token r ->
  Datetime.add_seconds now (token_ttl self) = inr e1 ->
  Datetime.lt e1 now' = false ->
  exists td st2 sa,
    validate_token a now' st1 = Ok (Some td) st2 /\
    dict_at (heap st2) td = Some (access_metadata uid sa e1) /\
    _store st2 = _store st1 /\
    (forall xs, list_of (heap st) scopes = Some xs -> list_of (heap st2) sa = Some xs) /\
    (scopes = VNone -> list_of (heap st2) sa = Some []).
Proof.
  intros Hg Hne H1 Hlt.
  destruct (generate_token_post _ _ _ _ _ _ _ _ _ Hg)
    as (e1' & e2 & sa & sr & la & lr & H1' & H2 & Hp & Hs & Hla & Hlr & Hpair & Hxs & Hn).
  rewrite H1 in H1'. injection H1' as <-.
  assert (Hget : MemoryTokenStorage.get (_hash_token a) st1
                 = Ok (Some (List.length (heap st1)))
                      (State (heap st1 ++ [ODict (access_metadata uid sa e1)]) (_store st1))).
  { apply (get_encoded _ la).
    - rewrite Hs. rewrite lookup_insert_ne by congruence. apply lookup_insert_eq.
    - exact Hla.
    - apply decode_access. eapply add_seconds_valid. exact H1. }
  assert (Hd : dict_at (heap st1 ++ [ODict (access_metadata uid sa e1)]) (List.length (heap st1))
               = Some (access_metadata uid sa e1)).
  { unfold dict_at. rewrite lookup_new. reflexivity. }
  destruct (access_metadata_lookups uid sa e1) as (_ & _ & Hty & Hexp).
  eexists _, _, sa. split; [|split; [|split; [|split]]].
  - eapply validate_token_valid; [exact Hget | exact Hd | exact Hty | exact Hexp | exact Hlt].
  - exact Hd.
  - reflexivity.
  - intros xs Hx. cbn [heap]. eapply list_of_prefix; [|apply (Hxs xs Hx)].
    apply prefix_app_r. reflexivity.
  - intros Hnone. cbn [heap]. eapply list_of_prefix; [|apply (Hn Hnone)].
    apply prefix_app_r. reflexivity.
Qed.

Lemma encode_lookup_ne (d : gmap string value) (k : string) :
  k <> "expires_at"%string -> encode d !! k = d !! k.
Proof.
  intros Hk. unfold encode.
  destruct (d !! "expires_at"%string) as [[ | | |t| ]|]; try reflexivity.
  apply lookup_insert_ne. congruence.
Qed.

(** ** Round trip of a generated pair *)

(** C3: for a non-empty user id and a list of scopes, the access token
    that [generate_token] returns validates at once: the expiry time it
    was given is not before the clock reading of the call (the lifetime
    not being negative), and at every clock reading that is not past that
    expiry time [validate_token] returns a user context with that user id
    and a list with those scopes.  The two plaintexts drawn are assumed
    to have distinct hashes.  The proof makes no use of the user id being
    non-empty. *)
Theorem fresh_access_token_validates (self : TokenManager) (a r : string)
    (now e1 e2 : datetime) (user_id : string) (l0 : loc) (xs : list string)
    (st : state) :
  user_id <> ""%string ->
  heap st !! l0 = Some (OList xs) ->
  _hash_token a <> _hash_token r ->
  Datetime.valid now = true ->
  0 <= token_ttl self ->
  Datetime.add_seconds now (token_ttl self) = inr e1 ->
  Datetime.add_seconds now (refresh_ttl self) = inr e2 ->
  exists pair st1,
    generate_token self a r now (VStr user_id) (VRef l0) st = Ok pair st1 /\
    dict_at (heap st1) pair = Some (token_pair a r (token_ttl self)) /\
    Datetime.lt e1 now = false /\
    forall now', Datetime.lt e1 now' = false ->
      exists td st2 ctx sv,
        validate_token a now' st1 = Ok (Some td) st2 /\
        dict_at (heap st2) td = Some ctx /\
        ctx !! "user_id"%string = Some (VStr user_id) /\
        ctx !! "scopes"%string = Some sv /\
        list_of (heap st2) sv = Some xs.
Proof.
  intros _ Hl0 Hne Hvalid Httl H1 H2.
  destruct (generate_token_spec self a r now e1 e2 (VStr user_id) (VRef l0) st H1 H2)
    as (pair & st1 & sa' & sr & la & lr & Hg & _ & _ & _ & _ & Hpair & _).
  exists pair, st1. split; [exact Hg|]. split; [|split].
  - unfold dict_at. rewrite Hpair. reflexivity.
  - eapply add_seconds_not_before; eassumption.
  - intros now' Hlt.
    destruct (generate_validate _ _ _ _ _ _ _ _ _ _ _ Hg Hne H1 Hlt)
      as (td & st2 & sa & Hv & Hd & _ & Hxs & _).
    destruct (access_metadata_lookups (VStr user_id) sa e1) as (Hu & Hsc & _).
    exists td, st2, (access_metadata (VStr user_id) sa e1), sa.
    repeat split; try assumption.
    apply Hxs. unfold list_of. rewrite Hl0. reflexivity.
Qed.

(** C9: [generate_token] does not look at the user id.  With any string,
    the empty one included, it returns normally as soon as the two expiry
    times are representable, both records it writes carry that string
    under [user_id], and the access token validates to a context with that
    same string. *)
Theorem generate_token_any_user_id (self : TokenManager) (a r : string)
    (now e1 e2 : datetime) (user_id : string) (scopes : value) (st : state) :
  _hash_token a <> _hash_token r ->
  Datetime.add_seconds now (token_ttl self) = inr e1 ->
  Datetime.add_seconds now (refresh_ttl self) = inr e2 ->
  exists pair st1 da dr,
    generate_token self a r now (VStr user_id) scopes st = Ok pair st1 /\
    stored st1 (_hash_token a) = Some da /\
    da !! "user_id"%string = Some (VStr user_id) /\
    stored st1 (_hash_token r) = Some dr /\
    dr !! "user_id"%string = Some (VStr user_id) /\
    forall now', Datetime.lt e1 now' = false ->
      exists td st2 ctx,
        validate_token a now' st1 = Ok (Some td) st2 /\
        dict_at (heap st2) td = Some ctx /\
        ctx !! "user_id"%string = Some (VStr user_id).
Proof.
  intros Hne H1 H2.
  destruct (generate_token_spec self a r now e1 e2 (VStr user_id) scopes st H1 H2)
    as (pair & st1 & sa & sr & la & lr & Hg & _ & Hs & Hla & Hlr & _).
  exists pair, st1. do 2 eexists. split; [exact Hg|]. repeat split.
  - unfold stored. rewrite Hs.
    rewrite lookup_insert_ne by congruence. rewrite lookup_insert_eq, Hla. reflexivity.
  - rewrite encode_lookup_ne by discriminate. reflexivity.
  - unfold stored. rewrite Hs. rewrite lookup_insert_eq, Hlr. reflexivity.
  - rewrite encode_lookup_ne by discriminate. reflexivity.
  - intros now' Hlt.
    destruct (generate_validate _ _ _ _ _ _ _ _ _ _ _ Hg Hne H1 Hlt)
      as (td & st2 & sa' & Hv & Hd & _).
    exists td, st2, (access_metadata (VStr user_id) sa' e1). repeat split; assumption || reflexivity.
Qed.

(** ** Tokens without a record *)

Lemma validate_token_absent (token : string) (now : datetime) (st : state) :
  _store st !! _hash_token token = None ->
  validate_token token now st = Ok None st.
Proof.
  intros Habs. unfold validate_token.
  rewrite (bind_ok _ _ _ _ _ (get_absent _ _ Habs)). reflexivity.
Qed.

Lemma refresh_token_absent (self : TokenManager) (token : string) (now : datetime)
    (a2 r2 : string) (now' : datetime) (st : state) :
  _store st !! _hash_token token = None ->
  refresh_token self token now a2 r2 now' st = Ok None st.
Proof.
  intros Habs. unfold refresh_token.
  rewrite (bind_ok _ _ _ _ _ (get_absent _ _ Habs)). reflexivity.
Qed.

(** ** Rotation *)

(** On a Refresh record in date, [refresh_token] removes the linked access
    key and the refresh key, and then is [generate_token] for the user id
    and scopes of the record. *)
Lemma refresh_token_rotates (self : TokenManager) (token : string) (now e : datetime)
    (a2 r2 : string) (now' : datetime) (access : string) (uid sc : value)
    (st st1 : state) (td : loc) (r : gmap string value) :
  MemoryTokenStorage.get (_hash_token token) st = Ok (Some td) st1 ->
  dict_at (heap st1) td = Some r ->
  r !! "type"%string = Some (VStr "refresh") ->
  r !! "expires_at"%string = Some (VDatetime e) ->
  Datetime.lt e now = false ->
  r !! "access_token_hash"%string = Some (VStr (_hash_token access)) ->
  r !! "user_id"%string = Some uid ->
  r !! "scopes"%string = Some sc ->
  refresh_token self token now a2 r2 now' st
  = match generate_token self a2 r2 now' uid sc
            (State (heap st1)
               (base.delete (_hash_token token)
                  (base.delete (_hash_token access) (_store st)))) with
    | Ok p st2 => Ok (Some p) st2
    | Raise x st2 => Raise x st2
    end.
Proof.
  intros Hget Hr Hty Hexp Hlt Hlink Hu Hsc. unfold refresh_token.
  rewrite (bind_ok _ _ _ _ _ Hget).
  erewrite bind_ok by (eapply found_present; eassumption). cbn [negb].
  erewrite bind_ok by (eapply found_load; eassumption).
  rewrite (dict_get_Some _ _ _ Hty), (dict_get_Some _ _ _ Hexp), (dict_get_Some _ _ _ Hlink).
  cbn [is_str String.eqb Ascii.eqb Bool.eqb negb].
  rewrite Hu, Hsc.
  unfold expired, bind, truthy, lt_datetime, ret,
    MemoryTokenStorage.delete_value, MemoryTokenStorage.delete.
  cbn [truthy_in negb]. rewrite Hlt. cbn [negb].
  rewrite hash_token_nonempty. cbn [negb heap _store].
  erewrite (found_store _ st st1) by eassumption. reflexivity.
Qed.

(** A branch that raises or returns something else is not the run at hand. *)
Ltac no_result H :=
  solve [ unfold bind, ret, raise, MemoryTokenStorage.delete in H; discriminate H ].

Lemma truthy_inv (v : value) (st st' : state) (b : bool) :
  truthy v st = Ok b st' -> b = truthy_in (heap st) v /\ st' = st.
Proof. unfold truthy. intros [= <- <-]. auto. Qed.

Lemma expired_state (v : value) (now : datetime) (st st' : state) (b : bool) :
  expired v now st = Ok b st' -> st' = st.
Proof.
  unfold expired, bind, truthy, lt_datetime, ret, raise.
  destruct (truthy_in (heap st) v); cbn [negb].
  - destruct v; intros [= _ <-] || discriminate; reflexivity.
  - intros [= _ <-]. reflexivity.
Qed.

(** What a successful [refresh_token] has done to the store. *)
Lemma refresh_token_success_inv (self : TokenManager) (token : string) (now : datetime)
    (a2 r2 : string) (now' : datetime) (st st1 : state) (pair : loc) :
  refresh_token self token now a2 r2 now' st = Ok (Some pair) st1 ->
  exists td st0 d la lr S,
    MemoryTokenStorage.get (_hash_token token) st = Ok (Some td) st0 /\
    heap st0 !! td = Some (ODict d) /\
    _store st1
    = <[_hash_token r2 := lr]> (<[_hash_token a2 := la]> (base.delete (_hash_token token) S)) /\
    (forall access, d !! "access_token_hash"%string = Some (VStr (_hash_token access)) ->
                    S = base.delete (_hash_token access) (_store st)).
Proof.
  unfold refresh_token. intros H.
  apply bind_inv in H as (rd & st0 & Hget & H).
  destruct rd as [td|]; [|no_result H].
  apply bind_inv in H as (present & s & Hp & H).
  apply truthy_inv in Hp as [-> ->].
  destruct (truthy_in (heap st0) (VRef td)); cbn [negb] in H; [|no_result H].
  apply bind_inv in H as (d & s & Hload & H).
  unfold load_dict in Hload.
  destruct (heap st0 !! td) as [[d'|]|] eqn:Hheap; try no_result Hload.
  injection Hload as Hd Hs. subst d' s.
  destruct (is_str (dict_get d "type") "refresh"); cbn [negb] in H; [|no_result H].
  apply bind_inv in H as (ex & s & Hexp & H).
  apply expired_state in Hexp as ->.
  destruct ex; [no_result H|].
  apply bind_inv in H as (linked & s & Hl & H).
  apply truthy_inv in Hl as [-> ->].
  apply bind_inv in H as ([] & s1 & Hdel & H).
  apply bind_inv in H as ([] & s2 & Hdel2 & H).
  injection Hdel2 as <-.
  apply bind_inv in H as (uid & s3 & Hu & H).
  assert (s3 = State (heap s1) (base.delete (_hash_token token) (_store s1))) as ->.
  { destruct (d !! "user_id"%string); [|no_result Hu]. injection Hu as _ <-. reflexivity. }
  apply bind_inv in H as (sc & s4 & Hsc & H).
  assert (Hs4 : _store s4 = base.delete (_hash_token token) (_store s1)).
  { destruct (d !! "scopes"%string).
    - injection Hsc as _ <-. reflexivity.
    - unfold bind, alloc, ret in Hsc. injection Hsc as _ <-. reflexivity. }
  apply bind_inv in H as (p & s5 & Hgen & H).
  injection H as <- <-.
  destruct (generate_token_post _ _ _ _ _ _ _ _ _ Hgen)
    as (e1 & e2 & sa & sr & la & lr & _ & _ & _ & Hs5 & _).
  exists td, st0, d, la, lr, (_store s1).
  split; [exact Hget|]. split; [exact Hheap|]. split; [rewrite Hs5, Hs4; reflexivity|].
  intros access Hlink.
  rewrite (dict_get_Some _ _ _ Hlink), truthy_hash in Hdel.
  injection Hdel as <-. cbn [_store].
  apply get_Some_inv in Hget as (d0 & r0 & _ & _ & _ & ->). reflexivity.
Qed.

Lemma refresh_token_one_time_run (self : TokenManager) (r : string) (now : datetime)
    (a2 r2 : string) (now2 : datetime) (st st1 : state) (pair : loc) :
  refresh_token self r now a2 r2 now2 st = Ok (Some pair) st1 ->
  _hash_token a2 <> _hash_token r ->
  _hash_token r2 <> _hash_token r ->
  (forall now3 a3 r3 now4, refresh_token self r now3 a3 r3 now4 st1 = Ok None st1) /\
  (forall a td st0 d,
     MemoryTokenStorage.get (_hash_token r) st = Ok (Some td) st0 ->
     dict_at (heap st0) td = Some d ->
     d !! "access_token_hash"%string = Some (VStr (_hash_token a)) ->
     _hash_token a2 <> _hash_token a ->
     _hash_token r2 <> _hash_token a ->
     forall now3, validate_token a now3 st1 = Ok None st1).
Proof.
  intros H Ha2 Hr2.
  destruct (refresh_token_success_inv _ _ _ _ _ _ _ _ _ H)
    as (td & st0 & d & la & lr & S & Hget & Hheap & Hs & Hlink).
  split.
  - intros now3 a3 r3 now4. apply refresh_token_absent.
    rewrite Hs. rewrite !lookup_insert_ne by congruence. apply lookup_delete_eq.
  - intros a td' st0' d' Hget' Hd' Hl' Ha Hr now3.
    rewrite Hget in Hget'. injection Hget' as <- <-.
    unfold dict_at in Hd'. rewrite Hheap in Hd'. injection Hd' as <-.
    apply validate_token_absent.
    rewrite Hs, (Hlink a Hl'). rewrite !lookup_insert_ne by congruence.
    destruct (decide (_hash_token r = _hash_token a)) as [<-|Hne].
    + apply lookup_delete_eq.
    + rewrite lookup_delete_ne by congruence. apply lookup_delete_eq.
Qed.

Lemma revocation_asymmetry_run (self : TokenManager) (a r : string) (now : datetime)
    (uid scopes : value) (st st1 : state) (pair : loc) :
  generate_token self a r now uid scopes st = Ok pair st1 ->
  _hash_token a <> _hash_token r ->
  (exists st2,
     revoke_token a st1 = Ok true st2 /\
     forall now1 a2 r2 now2 e2 e1' e2',
       Datetime.add_seconds now (refresh_ttl self) = inr e2 ->
       Datetime.lt e2 now1 = false ->
       Datetime.add_seconds now2 (token_ttl self) = inr e1' ->
       Datetime.add_seconds now2 (refresh_ttl self) = inr e2' ->
       exists pair2 st3, refresh_token self r now1 a2 r2 now2 st2 = Ok (Some pair2) st3) /\
  (exists st2,
     revoke_token r st1 = Ok true st2 /\
     _store st2 !! _hash_token r = None /\
     _store st2 !! _hash_token a = None /\
     (forall now1, validate_token a now1 st2 = Ok None st2) /\
     (forall now1 a2 r2 now2, refresh_token self r now1 a2 r2 now2 st2 = Ok None st2)).
Proof.
  intros Hg Hne.
  destruct (generate_token_post _ _ _ _ _ _ _ _ _ Hg)
    as (e1 & e2 & sa & sr & la & lr & H1 & H2 & Hp & Hs & Hla & Hlr & _).
  pose proof (add_seconds_valid _ _ _ H1) as Hv1.
  pose proof (add_seconds_valid _ _ _ H2) as Hv2.
  destruct (access_metadata_lookups uid sa e1) as (_ & _ & Haty & _).
  destruct (refresh_metadata_lookups uid sr (_hash_token a) e2)
    as (Hru & Hrs & Hrl & Hrty & Hre).
  assert (Hka : _store st1 !! _hash_token a = Some la).
  { rewrite Hs. rewrite lookup_insert_ne by congruence. apply lookup_insert_eq. }
  assert (Hkr : _store st1 !! _hash_token r = Some lr).
  { rewrite Hs. apply lookup_insert_eq. }
  split.
  - eexists. split.
    + eapply revoke_token_access; [| |exact Haty].
      * apply (get_encoded _ la); [exact Hka | exact Hla | apply decode_access; exact Hv1].
      * unfold dict_at. cbn [heap]. rewrite lookup_new. reflexivity.
    + intros now1 a2 r2 now2 e2_ e1' e2' H2_ Hlt H1' H2'.
      rewrite H2 in H2_. injection H2_ as <-.
      erewrite refresh_token_rotates;
        [ | | | exact Hrty | exact Hre | exact Hlt | exact Hrl | exact Hru | exact Hrs ].
      * match goal with
        | |- context [generate_token self a2 r2 now2 uid sr ?s] =>
            destruct (generate_token_spec self a2 r2 now2 e1' e2' uid sr s H1' H2')
              as (p & s' & _ & _ & _ & _ & -> & _)
        end.
        eauto.
      * apply (get_encoded _ lr).
        -- cbn [_store]. rewrite lookup_delete_ne by congruence. exact Hkr.
        -- cbn [heap]. apply lookup_old. exact Hlr.
        -- apply decode_refresh. exact Hv2.
      * unfold dict_at. cbn [heap]. rewrite lookup_new. reflexivity.
  - eexists. split; [|split; [|split; [|split]]].
    + eapply revoke_token_refresh; [| |exact Hrty|exact Hrl].
      * apply (get_encoded _ lr); [exact Hkr | exact Hlr | apply decode_refresh; exact Hv2].
      * unfold dict_at. cbn [heap]. rewrite lookup_new. reflexivity.
    + cbn [_store]. apply lookup_delete_eq.
    + cbn [_store]. rewrite lookup_delete_ne by congruence. apply lookup_delete_eq.
    + intros now1. apply validate_token_absent.
      cbn [_store]. rewrite lookup_delete_ne by congruence. apply lookup_delete_eq.
    + intros now1 a2 r2 now2. apply refresh_token_absent.
      cbn [_store]. apply lookup_delete_eq.
Qed.

(** ** The properties, on what the calls return *)

Lemma returned_field_inv (res : result (option loc)) (k : string) (v : value) :
  returned_field res k = Some v ->
  exists td st1 r, res = Ok (Some td) st1 /\ dict_at (heap st1) td = Some r /\ r !! k = Some v.
Proof.
  unfold returned_field. destruct res as [[td|] st1|]; try discriminate.
  destruct (dict_at (heap st1) td) as [r|] eqn:Hr; [|discriminate].
  intros Hk. exists td, st1, r. auto.
Qed.

Lemma returned_fields_inv (res : result (option loc)) (k k' : string) (v v' : value) :
  returned_field res k = Some v ->
  returned_field res k' = Some v' ->
  exists td st1 r,
    res = Ok (Some td) st1 /\ dict_at (heap st1) td = Some r /\
    r !! k = Some v /\ r !! k' = Some v'.
Proof.
  intros H H'. apply returned_field_inv in H as (td & st1 & r & -> & Hr & Hk).
  unfold returned_field in H'. rewrite Hr in H'. exists td, st1, r. auto.
Qed.

(** C1 (amended): when the record that [get] returns for the hash of a
    plaintext is an Access record whose [expires_at] is strictly before
    the clock reading, [validate_token] on the plaintext returns [None]
    and deletes the record, so that a following [get] on the hash finds
    nothing. *)
Theorem validate_token_expired (token : string) (now e : datetime) (st : state) :
  returned_field (MemoryTokenStorage.get (_hash_token token) st) "type"
    = Some (VStr "access") ->
  returned_field (MemoryTokenStorage.get (_hash_token token) st) "expires_at"
    = Some (VDatetime e) ->
  Datetime.lt e now = true ->
  exists st2,
    validate_token token now st = Ok None st2 /\
    _store st2 = base.delete (_hash_token token) (_store st) /\
    MemoryTokenStorage.get (_hash_token token) st2 = Ok None st2.
Proof.
  intros Hty Hexp Hlt.
  destruct (returned_fields_inv _ _ _ _ _ Hty Hexp) as (td & st1 & r & Hget & Hr & Ht & He).
  eapply validate_token_expired_found; eassumption.
Qed.

(** C7: a record of the wrong kind is never deleted.  [validate_token] on
    a plaintext whose record is a Refresh record, and [refresh_token] on a
    plaintext whose record is an Access record, return [None] before the
    expiry test is reached (so also when the record has not expired).  The
    store is the one they found and no object that existed has changed:
    the heap has only gained the copy made by [get]. *)
Theorem wrong_kind_not_deleted (self : TokenManager) (token : string) (now : datetime)
    (new_access new_refresh : string) (now' : datetime) (st : state)
    (res : result (option loc)) :
  (returned_field (MemoryTokenStorage.get (_hash_token token) st) "type"
     = Some (VStr "refresh") /\
   res = validate_token token now st)
  \/
  (returned_field (MemoryTokenStorage.get (_hash_token token) st) "type"
     = Some (VStr "access") /\
   res = refresh_token self token now new_access new_refresh now' st) ->
  exists st1,
    res = Ok None st1 /\
    _store st1 = _store st /\
    heap st `prefix_of` heap st1 /\
    (forall k, stored st k <> None -> stored st1 k = stored st k).
Proof.
  intros H.
  assert (Hfound : exists td st1 r kind,
             MemoryTokenStorage.get (_hash_token token) st = Ok (Some td) st1 /\
             dict_at (heap st1) td = Some r /\
             r !! "type"%string = Some (VStr kind) /\
             ((kind = "refresh"%string /\ res = validate_token token now st) \/
              (kind = "access"%string /\
               res = refresh_token self token now new_access new_refresh now' st))).
  { destruct H as [[Hty ->] | [Hty ->]];
      apply returned_field_inv in Hty as (td & st1 & r & Hget & Hr & Hk);
      exists td, st1, r; eauto 10. }
  destruct Hfound as (td & st1 & r & kind & Hget & Hr & Hty & Hres).
  assert (Hs : _store st1 = _store st) by (eapply found_store; eassumption).
  assert (Hp : heap st `prefix_of` heap st1) by (eapply found_prefix; eassumption).
  destruct (wrong_kind_found self token now new_access new_refresh now' _ _ _ _ Hget Hr)
    as [Hv Hf].
  exists st1. split; [|split; [exact Hs|split; [exact Hp|]]].
  - destruct Hres as [[-> ->] | [-> ->]]; auto.
  - intros k. unfold stored. rewrite Hs.
    destruct (_store st !! k) as [l|]; [|congruence].
    destruct (heap st !! l) as [o|] eqn:Hl; [|congruence].
    rewrite (prefix_lookup _ _ _ _ Hp Hl). reflexivity.
Qed.

(** C10: when the record that [get] returns for the hash of a plaintext
    is a Refresh record that has expired, [refresh_token] returns [None]
    and removes the key of that record only: the store it leaves is the
    old one without that key, no object on the heap has changed, and so
    every record stored under another key (the linked access record among
    them) is as it was. *)
Theorem refresh_token_expired_deletes_only_itself (self : TokenManager)
    (token : string) (now e : datetime)
    (new_access new_refresh : string) (now' : datetime) (st : state) :
  returned_field (MemoryTokenStorage.get (_hash_token token) st) "type"
    = Some (VStr "refresh") ->
  returned_field (MemoryTokenStorage.get (_hash_token token) st) "expires_at"
    = Some (VDatetime e) ->
  Datetime.lt e now = true ->
  exists st2,
    refresh_token self token now new_access new_refresh now' st = Ok None st2 /\
    _store st2 = base.delete (_hash_token token) (_store st) /\
    heap st `prefix_of` heap st2 /\
    (forall k d, k <> _hash_token token -> stored st k = Some d -> stored st2 k = Some d).
Proof.
  intros Hty Hexp Hlt.
  destruct (returned_fields_inv _ _ _ _ _ Hty Hexp) as (td & st1 & r & Hget & Hr & Ht & He).
  eapply refresh_token_expired_found; eassumption.
Qed.

(** C4: a refresh token works once.  After a successful [refresh_token]
    on a plaintext, a second call on it returns [None], and so does
    [validate_token] on the access token issued with it (the one whose
    hash its record linked to).  The plaintexts drawn by the first call
    are assumed not to collide with the old ones. *)
Theorem refresh_token_one_time (self : TokenManager) (r : string) (now : datetime)
    (a2 r2 : string) (now2 : datetime) (st : state) :
  succeeded (refresh_token self r now a2 r2 now2 st) = true ->
  _hash_token a2 <> _hash_token r ->
  _hash_token r2 <> _hash_token r ->
  let st1 := final_state (refresh_token self r now a2 r2 now2 st) in
  (forall now3 a3 r3 now4, refresh_token self r now3 a3 r3 now4 st1 = Ok None st1) /\
  (forall a,
     returned_field (MemoryTokenStorage.get (_hash_token r) st) "access_token_hash"
       = Some (VStr (_hash_token a)) ->
     _hash_token a2 <> _hash_token a ->
     _hash_token r2 <> _hash_token a ->
     forall now3, validate_token a now3 st1 = Ok None st1).
Proof.
  intros Hok Ha2 Hr2.
  destruct (refresh_token self r now a2 r2 now2 st) as [[pair|] st1'|] eqn:Hrun;
    try discriminate.
  cbn [final_state].
  destruct (refresh_token_one_time_run _ _ _ _ _ _ _ _ _ Hrun Ha2 Hr2) as [Hsecond Hold].
  split; [exact Hsecond|].
  intros a Hlink Ha Hr now3.
  apply returned_field_inv in Hlink as (td & st0 & d & Hget & Hd & Hl).
  eapply Hold; eassumption.
Qed.

(** C5: the two directions of revocation on a generated pair.  Revoking
    the access token leaves the refresh token usable: a later
    [refresh_token] on it, before it expires, returns a new pair.
    Revoking the refresh token removes both records, after which neither
    token is accepted.  The two plaintexts are assumed to have distinct
    hashes. *)
Theorem revocation_asymmetry (self : TokenManager) (a r : string) (now e1 e2 : datetime)
    (uid scopes : value) (st : state) :
  Datetime.add_seconds now (token_ttl self) = inr e1 ->
  Datetime.add_seconds now (refresh_ttl self) = inr e2 ->
  _hash_token a <> _hash_token r ->
  let st1 := final_state (generate_token self a r now uid scopes st) in
  (exists st2,
     revoke_token a st1 = Ok true st2 /\
     forall now1 a2 r2 now2 e1' e2',
       Datetime.lt e2 now1 = false ->
       Datetime.add_seconds now2 (token_ttl self) = inr e1' ->
       Datetime.add_seconds now2 (refresh_ttl self) = inr e2' ->
       succeeded (refresh_token self r now1 a2 r2 now2 st2) = true) /\
  (exists st2,
     revoke_token r st1 = Ok true st2 /\
     _store st2 !! _hash_token r = None /\
     _store st2 !! _hash_token a = None /\
     (forall now1, validate_token a now1 st2 = Ok None st2) /\
     (forall now1 a2 r2 now2, refresh_token self r now1 a2 r2 now2 st2 = Ok None st2)).
Proof.
  intros H1 H2 Hne.
  destruct (generate_token_spec self a r now e1 e2 uid scopes st H1 H2)
    as (pair & st1' & sa & sr & la & lr & Hg & _).
  rewrite Hg. cbn [final_state].
  destruct (revocation_asymmetry_run _ _ _ _ _ _ _ _ _ Hg Hne) as [Hacc Href].
  split; [|exact Href].
  destruct Hacc as (st2 & Hrev & Hlater). exists st2. split; [exact Hrev|].
  intros now1 a2 r2 now2 e1' e2' Hlt H1' H2'.
  destruct (Hlater now1 a2 r2 now2 e2 e1' e2' H2 Hlt H1' H2') as (pair2 & st3 & ->).
  reflexivity.
Qed.

(** ** Copies made by the store *)

Lemma dict_setitem_eq (l : loc) (d : gmap string value) (k : string) (v : value)
    (st : state) :
  heap st !! l = Some (ODict d) ->
  dict_setitem l k v st
  = Ok tt (State (<[l := ODict (<[k := v]> d)]> (heap st)) (_store st)).
Proof. intros Hl. unfold dict_setitem, bind, load_dict. rewrite Hl. reflexivity. Qed.

(** What [set] and [get] do isolate: the dict itself.  Assigning to a
    field of the record after it was stored does not show in what [get]
    returns. *)
Lemma set_isolates_fields (key : string) (record : loc) (d : gmap string value)
    (k : string) (v : value) (st : state) :
  heap st !! record = Some (ODict d) ->
  decode (encode d) = Some d ->
  exists l st',
    assign_after_set key record k v st = Ok (Some l) st' /\
    dict_at (heap st') l = Some d.
Proof.
  intros Hl Hd. unfold assign_after_set.
  rewrite (bind_ok _ _ _ _ _ (set_eq key _ _ _ Hl)).
  assert (Hlt : (record < List.length (heap st))%nat) by (eapply lookup_lt_Some; exact Hl).
  erewrite bind_ok by (apply dict_setitem_eq; cbn [heap]; apply lookup_old; exact Hl).
  cbn [heap _store].
  erewrite get_encoded.
  - do 2 eexists. split; [reflexivity|].
    unfold dict_at. cbn [heap]. rewrite lookup_new. reflexivity.
  - cbn [_store]. apply lookup_insert_eq.
  - cbn [heap]. rewrite list_lookup_insert_ne by lia. apply lookup_new.
  - exact Hd.
Qed.

(** C2 fails on the list under [scopes]: the copy made by [set] and by
    [get] is [dict.copy()], which shares the objects the dict refers to.
    After the caller has appended ["admin"] to the list it had stored, or
    to the list of a record it got back, [get] returns a record with
    scopes [["read"; "admin"]]. *)
Theorem set_shares_scopes_list :
  returned (append_after_set init) = Some ["read"; "admin"]%string /\
  returned (append_to_returned init) = Some ["read"; "admin"]%string.
Proof. split; vm_compute; reflexivity. Qed.

(** ** Concrete runs *)

(** The expiry times of the demonstration are the ones the manager
    computes. *)
Example demo_expiries :
  Datetime.add_seconds demo_now (token_ttl demo_manager) = inr demo_access_expiry /\
  Datetime.add_seconds demo_now (refresh_ttl demo_manager) = inr demo_refresh_expiry.
Proof. split; vm_compute; reflexivity. Qed.

(** C1, as stated, fails at the instant of expiry: the stored Access
    record of ["A"] expires at [demo_access_expiry]; with the clock at
    exactly that time [validate_token] still returns the record, and
    [get] still finds it afterwards. *)
Lemma validate_token_at_expiry_is_valid :
  returned_field (MemoryTokenStorage.get (_hash_token "A") demo_state1) "type"
    = Some (VStr "access") /\
  returned_field (MemoryTokenStorage.get (_hash_token "A") demo_state1) "expires_at"
    = Some (VDatetime demo_access_expiry) /\
  at_or_before demo_access_expiry demo_access_expiry = true /\
  returned_field (validate_token "A" demo_access_expiry demo_state1) "user_id"
    = Some (VStr "u1") /\
  returned_field
    (MemoryTokenStorage.get (_hash_token "A")
       (final_state (validate_token "A" demo_access_expiry demo_state1))) "type"
    = Some (VStr "access").
Proof. repeat split; vm_compute; reflexivity. Qed.

Lemma validate_token_expired_witness :
  Datetime.lt demo_access_expiry demo_later = true /\
  exists st2,
    validate_token "A" demo_later demo_state1 = Ok None st2 /\
    _store st2 = base.delete (_hash_token "A") (_store demo_state1) /\
    MemoryTokenStorage.get (_hash_token "A") st2 = Ok None st2.
Proof.
  split; [vm_compute; reflexivity|].
  apply (validate_token_expired "A" demo_later demo_access_expiry demo_state1);
    vm_compute; reflexivity.
Defined.

Lemma fresh_access_token_validates_witness :
  exists pair st1,
    generate_token demo_manager "A" "R" demo_now (VStr "u1") (VRef 0%nat) demo_state0
      = Ok pair st1 /\
    dict_at (heap st1) pair = Some (token_pair "A" "R" (token_ttl demo_manager)) /\
    Datetime.lt demo_access_expiry demo_now = false /\
    forall now', Datetime.lt demo_access_expiry now' = false ->
      exists td st2 ctx sv,
        validate_token "A" now' st1 = Ok (Some td) st2 /\
        dict_at (heap st2) td = Some ctx /\
        ctx !! "user_id"%string = Some (VStr "u1") /\
        ctx !! "scopes"%string = Some sv /\
        list_of (heap st2) sv = Some ["read"%string].
Proof.
  apply (fresh_access_token_validates demo_manager "A" "R" demo_now
           demo_access_expiry demo_refresh_expiry "u1" 0%nat ["read"%string] demo_state0).
  - discriminate.
  - reflexivity.
  - vm_compute. discriminate.
  - vm_compute. reflexivity.
  - vm_compute. discriminate.
  - vm_compute. reflexivity.
  - vm_compute. reflexivity.
Defined.

Lemma refresh_token_one_time_witness :
  refresh_token demo_manager "R" demo_later "A3" "R3" demo_later demo_state2
    = Ok None demo_state2 /\
  validate_token "A" demo_later demo_state2 = Ok None demo_state2.
Proof.
  assert (H1 : succeeded (refresh_token demo_manager "R" demo_later "A2" "R2" demo_later
                            demo_state1) = true) by (vm_compute; reflexivity).
  assert (H2 : _hash_token "A2" <> _hash_token "R") by (vm_compute; discriminate).
  assert (H3 : _hash_token "R2" <> _hash_token "R") by (vm_compute; discriminate).
  destruct (refresh_token_one_time demo_manager "R" demo_later "A2" "R2" demo_later
              demo_state1 H1 H2 H3) as [Hsecond Hold].
  split.
  - apply Hsecond.
  - apply Hold.
    + vm_compute. reflexivity.
    + vm_compute. discriminate.
    + vm_compute. discriminate.
Defined.

Lemma revocation_asymmetry_witness :
  (exists st2,
     revoke_token "A" demo_state1 = Ok true st2 /\
     forall now1 a2 r2 now2 e1' e2',
       Datetime.lt demo_refresh_expiry now1 = false ->
       Datetime.add_seconds now2 (token_ttl demo_manager) = inr e1' ->
       Datetime.add_seconds now2 (refresh_ttl demo_manager) = inr e2' ->
       succeeded (refresh_token demo_manager "R" now1 a2 r2 now2 st2) = true) /\
  (exists st2,
     revoke_token "R" demo_state1 = Ok true st2 /\
     _store st2 !! _hash_token "R" = None /\
     _store st2 !! _hash_token "A" = None /\
     (forall now1, validate_token "A" now1 st2 = Ok None st2) /\
     (forall now1 a2 r2 now2,
        refresh_token demo_manager "R" now1 a2 r2 now2 st2 = Ok None st2)).
Proof.
  apply (revocation_asymmetry demo_manager "A" "R" demo_now
           demo_access_expiry demo_refresh_expiry (VStr "u1") (VRef 0%nat) demo_state0).
  - vm_compute. reflexivity.
  - vm_compute. reflexivity.
  - vm_compute. discriminate.
Defined.

Lemma revoke_token_absent_witness :
  revoke_token "never-issued" demo_state1 = Ok false demo_state1.
Proof.
  apply (revoke_token_absent "never-issued" demo_state1).
  vm_compute. reflexivity.
Defined.

Lemma wrong_kind_not_deleted_witness :
  (exists st1,
     validate_token "R" demo_now demo_state1 = Ok None st1 /\
     _store st1 = _store demo_state1 /\
     heap demo_state1 `prefix_of` heap st1 /\
     (forall k, stored demo_state1 k <> None -> stored st1 k = stored demo_state1 k)) /\
  (exists st1,
     refresh_token demo_manager "A" demo_now "A2" "R2" demo_now demo_state1 = Ok None st1 /\
     _store st1 = _store demo_state1 /\
     heap demo_state1 `prefix_of` heap st1 /\
     (forall k, stored demo_state1 k <> None -> stored st1 k = stored demo_state1 k)).
Proof.
  split.
  - apply (wrong_kind_not_deleted demo_manager "R" demo_now "A2" "R2" demo_now demo_state1).
    left. split; [vm_compute; reflexivity | reflexivity].
  - apply (wrong_kind_not_deleted demo_manager "A" demo_now "A2" "R2" demo_now demo_state1).
    right. split; [vm_compute; reflexivity | reflexivity].
Defined.

Lemma set_get_expires_at_witness :
  exists st1 l' st2 r,
    MemoryTokenStorage.set "k" 0%nat
      (State [ODict (access_metadata (VStr "u1") VNone demo_access_expiry)] ∅) = Ok tt st1 /\
    MemoryTokenStorage.get "k" st1 = Ok (Some l') st2 /\
    dict_at (heap st2) l' = Some r /\
    r !! "expires_at"%string = Some (VDatetime demo_access_expiry) /\
    r = access_metadata (VStr "u1") VNone demo_access_expiry.
Proof.
  apply (set_get_expires_at "k" 0%nat
           (access_metadata (VStr "u1") VNone demo_access_expiry) demo_access_expiry).
  - reflexivity.
  - reflexivity.
  - vm_compute. reflexivity.
Defined.

Lemma generate_token_any_user_id_witness :
  exists pair st1 da dr,
    generate_token demo_manager "A" "R" demo_now (VStr "") (VRef 0%nat) demo_state0
      = Ok pair st1 /\
    stored st1 (_hash_token "A") = Some da /\
    da !! "user_id"%string = Some (VStr "") /\
    stored st1 (_hash_token "R") = Some dr /\
    dr !! "user_id"%string = Some (VStr "") /\
    forall now', Datetime.lt demo_access_expiry now' = false ->
      exists td st2 ctx,
        validate_token "A" now' st1 = Ok (Some td) st2 /\
        dict_at (heap st2) td = Some ctx /\
        ctx !! "user_id"%string = Some (VStr "").
Proof.
  apply (generate_token_any_user_id demo_manager "A" "R" demo_now
           demo_access_expiry demo_refresh_expiry "" (VRef 0%nat) demo_state0).
  - vm_compute. discriminate.
  - vm_compute. reflexivity.
  - vm_compute. reflexivity.
Defined.

Lemma refresh_token_expired_witness :
  Datetime.lt demo_refresh_expiry demo_expired = true /\
  exists st2,
    refresh_token demo_manager "R" demo_expired "A2" "R2" demo_expired demo_state1
      = Ok None st2 /\
    _store st2 = base.delete (_hash_token "R") (_store demo_state1) /\
    heap demo_state1 `prefix_of` heap st2 /\
    (forall k d, k <> _hash_token "R" ->
                 stored demo_state1 k = Some d -> stored st2 k = Some d).
Proof.
  split; [vm_compute; reflexivity|].
  apply (refresh_token_expired_deletes_only_itself demo_manager "R" demo_expired
           demo_refresh_expiry "A2" "R2" demo_expired demo_state1);
    vm_compute; reflexivity.
Defined.

(** * Further properties of the storage backend *)

Section StorageMore.
Import MemoryTokenStorage.

Lemma stored_prefix (st st' : state) (k : string) (d : gmap string value) :
  _store st' !! k = _store st !! k ->
  heap st `prefix_of` heap st' ->
  stored st k = Some d -> stored st' k = Some d.
Proof.
  intros Hs Hp. unfold stored. rewrite Hs.
  destruct (_store st !! k) as [l|]; [|discriminate].
  destruct (heap st !! l) as [o|] eqn:Hl; [|discriminate].
  rewrite (prefix_lookup _ _ _ _ Hp Hl). trivial.
Qed.

(** X1: [get] only reads.  Whatever it returns, and also when
    [fromisoformat] raises, the store maps the same keys to the same
    objects, no object that existed has changed, and every record that was
    stored is still stored. *)
Theorem get_only_reads (key : string) (st : state) :
  let st' := final_state (get key st) in
  _store st' = _store st /\
  heap st `prefix_of` heap st' /\
  (forall k d, stored st k = Some d -> stored st' k = Some d).
Proof.
  cbn zeta.
  assert (H : _store (final_state (get key st)) = _store st /\
              heap st `prefix_of` heap (final_state (get key st))).
  { destruct (_store st !! key) as [l|] eqn:Hk.
    - destruct (heap st !! l) as [[d|xs]|] eqn:Hl.
      + rewrite (get_eq _ _ _ _ Hk Hl).
        destruct (decode d); cbn [final_state heap _store];
          (split; [reflexivity | apply prefix_app_r; reflexivity]).
      + unfold get. rewrite Hk. unfold bind, load_dict. rewrite Hl. cbn. auto.
      + unfold get. rewrite Hk. unfold bind, load_dict. rewrite Hl. cbn. auto.
    - rewrite (get_absent _ _ Hk). cbn. auto. }
  destruct H as [Hs Hp]. repeat split; try assumption.
  intros k d. apply stored_prefix; [rewrite Hs; reflexivity | exact Hp].
Qed.

(** X2: [set] writes one key and nothing else.  The record passed in is
    left as it was (the datetime is turned into a string on the copy), the
    key holds the copy, and every record stored under another key is
    untouched. *)
Theorem set_writes_one_key (key : string) (l : loc) (d : gmap string value) (st : state) :
  heap st !! l = Some (ODict d) ->
  exists st1,
    set key l st = Ok tt st1 /\
    heap st1 !! l = Some (ODict d) /\
    stored st1 key = Some (encode d) /\
    heap st `prefix_of` heap st1 /\
    (forall k, k <> key -> _store st1 !! k = _store st !! k) /\
    (forall k d', k <> key -> stored st k = Some d' -> stored st1 k = Some d').
Proof.
  intros Hl. eexists. split; [apply set_eq; exact Hl|].
  assert (Hp : heap st `prefix_of` heap st ++ [ODict (encode d)])
    by (apply prefix_app_r; reflexivity).
  cbn [heap _store]. split; [|split; [|split; [|split]]].
  - apply lookup_old. exact Hl.
  - unfold stored. cbn [heap _store]. rewrite lookup_insert_eq, lookup_new. reflexivity.
  - exact Hp.
  - intros k Hk. apply lookup_insert_ne. congruence.
  - intros k d' Hk. apply stored_prefix; [|exact Hp].
    cbn [_store]. apply lookup_insert_ne. congruence.
Qed.

(** X3: [set] is an upsert, the last write wins.  After two records were
    written under one key, [get] returns the second. *)
Theorem set_overwrites (key : string) (l1 l2 : loc) (d1 d2 : gmap string value)
    (t : datetime) (st : state) :
  heap st !! l1 = Some (ODict d1) ->
  heap st !! l2 = Some (ODict d2) ->
  d2 !! "expires_at"%string = Some (VDatetime t) ->
  Datetime.valid t = true ->
  exists st1 st2 l st3,
    set key l1 st = Ok tt st1 /\
    set key l2 st1 = Ok tt st2 /\
    get key st2 = Ok (Some l) st3 /\
    dict_at (heap st3) l = Some d2.
Proof.
  intros H1 H2 Ht Hv.
  assert (Hde : decode (encode d2) = Some d2) by (apply decode_encode; rewrite Ht; exact Hv).
  do 4 eexists. split; [apply set_eq; exact H1|].
  split; [apply set_eq; cbn [heap]; apply lookup_old; exact H2|].
  split.
  - eapply get_encoded with (m := d2); [| |exact Hde].
    + cbn [_store]. apply lookup_insert_eq.
    + cbn [heap]. apply lookup_new.
  - unfold dict_at. cbn [heap]. rewrite lookup_new. reflexivity.
Qed.

(** X4: deleting a key that is not there changes nothing at all, and
    raises nothing. *)
Theorem delete_missing_noop (key : string) (st : state) :
  _store st !! key = None ->
  delete key st = Ok tt st.
Proof.
  intros H. unfold delete. rewrite delete_id by exact H. destruct st. reflexivity.
Qed.

(** X5: [delete] removes the key it is given and no other: [get] on it
    then finds nothing, the heap is the same, and every other key maps to
    what it did. *)
Theorem delete_removes_one_key (key : string) (st : state) :
  exists st1,
    delete key st = Ok tt st1 /\
    get key st1 = Ok None st1 /\
    heap st1 = heap st /\
    (forall k, k <> key -> _store st1 !! k = _store st !! k) /\
    (forall k, k <> key -> stored st1 k = stored st k).
Proof.
  eexists. split; [reflexivity|]. cbn [heap _store].
  split; [apply get_absent; cbn [_store]; apply lookup_delete_eq|].
  split; [reflexivity|]. split.
  - intros k Hk. apply lookup_delete_ne. congruence.
  - intros k Hk. unfold stored. cbn [heap _store].
    rewrite lookup_delete_ne by congruence. reflexivity.
Qed.

End StorageMore.

Section StorageMore2.
Import MemoryTokenStorage.

(** X6: after [clear] nothing is stored: [get] finds no key, and the
    manager accepts no token ([validate_token] and [refresh_token] return
    [None], [revoke_token] returns [False]). *)
Theorem clear_forgets_everything (self : TokenManager) (st : state) :
  exists st1,
    clear st = Ok tt st1 /\
    heap st1 = heap st /\
    (forall key, get key st1 = Ok None st1) /\
    (forall token now, validate_token token now st1 = Ok None st1) /\
    (forall token now a2 r2 now', refresh_token self token now a2 r2 now' st1 = Ok None st1) /\
    (forall token, revoke_token token st1 = Ok false st1).
Proof.
  eexists. split; [reflexivity|]. cbn [heap].
  split; [reflexivity|]. split; [|split; [|split]].
  - intros key. apply get_absent. apply lookup_empty.
  - intros token now. apply validate_token_absent. apply lookup_empty.
  - intros token now a2 r2 now'. apply refresh_token_absent. apply lookup_empty.
  - intros token. apply revoke_token_absent. apply lookup_empty.
Qed.

(** X7: what [get] returns is a new dict each time.  Assigning to a field
    of a returned record does not show in the record a later [get]
    returns, which is again a new object. *)
Theorem get_returns_fresh_copy (key : string) (d r : gmap string value) (st : state) :
  stored st key = Some d ->
  decode d = Some r ->
  exists l st1,
    get key st = Ok (Some l) st1 /\
    dict_at (heap st1) l = Some r /\
    forall k v,
      exists st2 l' st3,
        dict_setitem l k v st1 = Ok tt st2 /\
        get key st2 = Ok (Some l') st3 /\
        l' <> l /\
        dict_at (heap st3) l' = Some r.
Proof.
  intros Hst Hd.
  pose proof (get_stored _ _ _ Hst) as Hget. rewrite Hd in Hget.
  unfold stored in Hst.
  destruct (_store st !! key) as [l0|] eqn:Hk; [|discriminate].
  destruct (heap st !! l0) as [[d0|]|] eqn:Hl0; try discriminate.
  injection Hst as ->.
  assert (Hlt : (l0 < List.length (heap st))%nat) by (eapply lookup_lt_Some; exact Hl0).
  do 2 eexists. split; [exact Hget|]. cbn [heap].
  split; [unfold dict_at; rewrite lookup_new; reflexivity|].
  intros k v. do 3 eexists.
  split; [apply dict_setitem_eq; cbn [heap]; apply lookup_new|].
  cbn [heap _store]. rewrite insert_new.
  split.
  - rewrite (get_eq key l0 d); [rewrite Hd; reflexivity | exact Hk |].
    cbn [heap]. apply lookup_old. exact Hl0.
  - cbn [heap]. split.
    + rewrite length_app. cbn [List.length]. lia.
    + unfold dict_at. rewrite lookup_new. reflexivity.
Qed.

(** X8: [get] parses every string it finds under [expires_at].  A record
    stored with an ISO string there (rather than a datetime) does not come
    back as it was written: the field comes back as the datetime the
    string stands for. *)
Theorem string_expiry_comes_back_as_datetime (key : string) (l : loc)
    (d : gmap string value) (t : datetime) (st : state) :
  heap st !! l = Some (ODict d) ->
  d !! "expires_at"%string = Some (VStr (Datetime.isoformat t)) ->
  Datetime.valid t = true ->
  exists st1 l' st2 r,
    set key l st = Ok tt st1 /\
    get key st1 = Ok (Some l') st2 /\
    dict_at (heap st2) l' = Some r /\
    r !! "expires_at"%string = Some (VDatetime t) /\
    (forall k, k <> "expires_at"%string -> r !! k = d !! k).
Proof.
  intros Hl Hs Hv.
  assert (He : encode d = d) by (unfold encode; rewrite Hs; reflexivity).
  assert (Hd : decode d = Some (<["expires_at"%string := VDatetime t]> d)).
  { unfold decode. rewrite Hs, (fromisoformat_isoformat t Hv). reflexivity. }
  do 4 eexists. split; [apply set_eq; exact Hl|]. rewrite He.
  split.
  - erewrite get_eq; [rewrite Hd; reflexivity | |].
    + cbn [_store]. apply lookup_insert_eq.
    + cbn [heap]. apply lookup_new.
  - cbn [heap]. split; [unfold dict_at; rewrite lookup_new; reflexivity|].
    split; [apply lookup_insert_eq|].
    intros k Hk. apply lookup_insert_ne. congruence.
Qed.

End StorageMore2.

(** * Further properties of the token manager *)

Lemma expired_final (v : value) (now : datetime) (st : state) :
  final_state (expired v now st) = st.
Proof.
  unfold expired, bind, truthy, lt_datetime, ret, raise.
  destruct (truthy_in (heap st) v); cbn [negb]; [|reflexivity].
  destruct v; reflexivity.
Qed.

(** Closes a goal about the state in which a run has ended. *)
Ltac outcome Hs Hp :=
  unfold ret, raise, MemoryTokenStorage.delete;
  cbn [final_state succeeded heap _store]; rewrite ?Hs;
  split; [exact Hp | split; [auto | intros; first [discriminate | reflexivity]]].

(** X10: [validate_token] touches no token but the one presented.
    Whatever the state and the outcome, no object that existed has
    changed, and the store it leaves is the one it found, or that one
    without the key of the presented token; when it returns a record the
    store is the one it found. *)
Theorem validate_token_touches_own_key_only (token : string) (now : datetime) (st : state) :
  let st' := final_state (validate_token token now st) in
  heap st `prefix_of` heap st' /\
  (_store st' = _store st \/ _store st' = base.delete (_hash_token token) (_store st)) /\
  (succeeded (validate_token token now st) = true -> _store st' = _store st).
Proof.
  cbn zeta. unfold validate_token, bind, truthy, load_dict.
  destruct (get_only_reads (_hash_token token) st) as (Hs & Hp & _).
  destruct (MemoryTokenStorage.get (_hash_token token) st) as [[td|] s1|x s1];
    cbn [final_state] in Hs, Hp; [|outcome Hs Hp..].
  destruct (truthy_in (heap s1) (VRef td)); cbn [negb]; [|outcome Hs Hp].
  destruct (heap s1 !! td) as [[d|xs]|]; [|outcome Hs Hp..].
  destruct (is_str (dict_get d "type") "access"); cbn [negb]; [|outcome Hs Hp].
  pose proof (expired_final (dict_get d "expires_at") now s1) as He.
  destruct (expired (dict_get d "expires_at") now s1) as [[|] s2|x s2];
    cbn [final_state] in He; subst s2; outcome Hs Hp.
Qed.

(** X11: an Access record without an expiry time (no [expires_at], or
    [None] there) counts as expired: [validate_token] returns [None] and
    deletes it. *)
Theorem validate_token_without_expiry (token : string) (now : datetime) (st : state) :
  returned_field (MemoryTokenStorage.get (_hash_token token) st) "type"
    = Some (VStr "access") ->
  returned_field (MemoryTokenStorage.get (_hash_token token) st) "expires_at" = None \/
  returned_field (MemoryTokenStorage.get (_hash_token token) st) "expires_at" = Some VNone ->
  exists st2,
    validate_token token now st = Ok None st2 /\
    _store st2 = base.delete (_hash_token token) (_store st) /\
    MemoryTokenStorage.get (_hash_token token) st2 = Ok None st2.
Proof.
  intros Hty Hexp.
  apply returned_field_inv in Hty as (td & st1 & r & Hget & Hr & Hty).
  unfold returned_field in Hexp. rewrite Hget, Hr in Hexp.
  assert (Hfalsy : dict_get r "expires_at" = VNone).
  { unfold dict_get. destruct Hexp as [-> | ->]; reflexivity. }
  eexists. split; [|split].
  - unfold validate_token.
    rewrite (bind_ok _ _ _ _ _ Hget).
    erewrite bind_ok by (eapply found_present; eassumption). cbn [negb].
    erewrite bind_ok by (eapply found_load; eassumption).
    rewrite (dict_get_Some _ _ _ Hty), Hfalsy.
    cbn [is_str String.eqb Ascii.eqb Bool.eqb negb].
    unfold expired, bind, truthy, ret, MemoryTokenStorage.delete.
    cbn [truthy_in negb]. reflexivity.
  - cbn [_store]. erewrite found_store by eassumption. reflexivity.
  - apply get_absent. cbn [_store]. apply lookup_delete_eq.
Qed.

(** X12: validation does not use a token up.  An Access record in date is
    returned, and returned again, with the same contents, by a second
    [validate_token] that is still in date. *)
Theorem validate_token_repeatable (token : string) (now now2 e : datetime) (st : state) :
  returned_field (MemoryTokenStorage.get (_hash_token token) st) "type"
    = Some (VStr "access") ->
  returned_field (MemoryTokenStorage.get (_hash_token token) st) "expires_at"
    = Some (VDatetime e) ->
  Datetime.lt e now = false ->
  Datetime.lt e now2 = false ->
  exists td st1 td2 st2 ctx,
    validate_token token now st = Ok (Some td) st1 /\
    dict_at (heap st1) td = Some ctx /\
    validate_token token now2 st1 = Ok (Some td2) st2 /\
    dict_at (heap st2) td2 = Some ctx.
Proof.
  intros Hty Hexp Hlt Hlt2.
  destruct (returned_fields_inv _ _ _ _ _ Hty Hexp) as (td & st1 & r & Hget & Hr & Ht & He).
  destruct (get_Some_inv _ _ _ _ Hget) as (d & r' & Hst & Hd & -> & ->).
  assert (r' = r) as ->.
  { unfold dict_at in Hr. cbn [heap] in Hr. rewrite lookup_new in Hr. congruence. }
  assert (Hget2 : MemoryTokenStorage.get (_hash_token token)
                    (State (heap st ++ [ODict r]) (_store st))
                  = Ok (Some (List.length (heap st ++ [ODict r])))
                       (State ((heap st ++ [ODict r]) ++ [ODict r]) (_store st))).
  { erewrite get_stored; [rewrite Hd; reflexivity|].
    eapply (stored_prefix st); [reflexivity| |exact Hst].
    cbn [heap]. apply prefix_app_r. reflexivity. }
  assert (Hr2 : dict_at ((heap st ++ [ODict r]) ++ [ODict r]) (List.length (heap st ++ [ODict r]))
                = Some r).
  { unfold dict_at. rewrite lookup_new. reflexivity. }
  exists (List.length (heap st)), (State (heap st ++ [ODict r]) (_store st)).
  exists (List.length (heap st ++ [ODict r])),
         (State ((heap st ++ [ODict r]) ++ [ODict r]) (_store st)), r.
  split; [eapply validate_token_valid; eassumption|].
  split; [exact Hr|].
  split; [eapply validate_token_valid; eassumption|].
  exact Hr2.
Qed.

(** X13: a revoked token is dead.  After [revoke_token] has returned
    [True] for a plaintext, revoking it again returns [False], and
    [validate_token] and [refresh_token] return [None] for it, all three
    leaving the state as it is. *)
Theorem revoked_token_is_dead (self : TokenManager) (token : string) (st : state) :
  returned (revoke_token token st) = Some true ->
  let st1 := final_state (revoke_token token st) in
  revoke_token token st1 = Ok false st1 /\
  (forall now, validate_token token now st1 = Ok None st1) /\
  (forall now a2 r2 now', refresh_token self token now a2 r2 now' st1 = Ok None st1).
Proof.
  intros Hret. cbn zeta.
  destruct (revoke_token token st) as [b st1|x st1] eqn:Hrun; [|discriminate].
  injection Hret as ->. cbn [final_state].
  assert (Habs : _store st1 !! _hash_token token = None).
  { unfold revoke_token in Hrun.
    apply bind_inv in Hrun as (rd & s0 & Hget & H).
    destruct rd as [td|]; [|no_result H].
    apply bind_inv in H as (present & s & Hp & H).
    apply truthy_inv in Hp as [-> ->].
    destruct (truthy_in (heap s0) (VRef td)); cbn [negb] in H; [|no_result H].
    apply bind_inv in H as (d & s & _ & H).
    apply bind_inv in H as ([] & s2 & _ & H).
    apply bind_inv in H as ([] & s3 & Hdel & H).
    injection Hdel as <-. injection H as <-.
    cbn [_store]. apply lookup_delete_eq. }
  split; [apply revoke_token_absent; exact Habs|].
  split; [intros now; apply validate_token_absent; exact Habs|].
  intros now a2 r2 now'. apply refresh_token_absent; exact Habs.
Qed.

(** X14: [generate_token] writes its two keys and nothing else.  Both
    keys are in the store afterwards, every other key maps to what it did,
    no object that existed has changed, and every record that was stored
    under another key is still there. *)
Theorem generate_token_writes_two_keys (self : TokenManager) (a r : string)
    (now e1 e2 : datetime) (uid scopes : value) (st : state) :
  Datetime.add_seconds now (token_ttl self) = inr e1 ->
  Datetime.add_seconds now (refresh_ttl self) = inr e2 ->
  let st1 := final_state (generate_token self a r now uid scopes st) in
  is_Some (_store st1 !! _hash_token a) /\
  is_Some (_store st1 !! _hash_token r) /\
  heap st `prefix_of` heap st1 /\
  (forall k, k <> _hash_token a -> k <> _hash_token r -> _store st1 !! k = _store st !! k) /\
  (forall k d, k <> _hash_token a -> k <> _hash_token r ->
               stored st k = Some d -> stored st1 k = Some d).
Proof.
  intros H1 H2. cbn zeta.
  destruct (generate_token_spec self a r now e1 e2 uid scopes st H1 H2)
    as (pair & st1 & sa & sr & la & lr & Hg & Hp & Hs & _).
  rewrite Hg. cbn [final_state].
  assert (Hother : forall k, k <> _hash_token a -> k <> _hash_token r ->
                             _store st1 !! k = _store st !! k).
  { intros k Ha Hr. rewrite Hs. rewrite !lookup_insert_ne by congruence. reflexivity. }
  split; [|split; [|split; [exact Hp|split; [exact Hother|]]]].
  - rewrite Hs. destruct (decide (_hash_token r = _hash_token a)) as [->|Hne].
    + rewrite lookup_insert_eq. eauto.
    + rewrite lookup_insert_ne by exact Hne. rewrite lookup_insert_eq. eauto.
  - rewrite Hs, lookup_insert_eq. eauto.
  - intros k d Ha Hr. apply stored_prefix; [apply Hother; assumption | exact Hp].
Qed.

(** X15: rotation keeps the identity.  After [generate_token] for a user
    id and a list of scopes, a [refresh_token] on the refresh token (before
    it expires) returns a pair whose access token validates to that user id
    and a list with those scopes.  The plaintexts of each pair are assumed
    to have distinct hashes. *)
Theorem refreshed_token_keeps_identity (self : TokenManager) (a r a2 r2 : string)
    (now now1 now2 now3 e1 e2 e1' e2' : datetime) (uid : value) (l0 : loc)
    (xs : list string) (st : state) :
  heap st !! l0 = Some (OList xs) ->
  _hash_token a <> _hash_token r ->
  _hash_token a2 <> _hash_token r2 ->
  Datetime.add_seconds now (token_ttl self) = inr e1 ->
  Datetime.add_seconds now (refresh_ttl self) = inr e2 ->
  Datetime.lt e2 now1 = false ->
  Datetime.add_seconds now2 (token_ttl self) = inr e1' ->
  Datetime.add_seconds now2 (refresh_ttl self) = inr e2' ->
  Datetime.lt e1' now3 = false ->
  exists pair st1 pair2 st2 td st3 ctx sv,
    generate_token self a r now uid (VRef l0) st = Ok pair st1 /\
    refresh_token self r now1 a2 r2 now2 st1 = Ok (Some pair2) st2 /\
    dict_at (heap st2) pair2 = Some (token_pair a2 r2 (token_ttl self)) /\
    validate_token a2 now3 st2 = Ok (Some td) st3 /\
    dict_at (heap st3) td = Some ctx /\
    ctx !! "user_id"%string = Some uid /\
    ctx !! "scopes"%string = Some sv /\
    list_of (heap st3) sv = Some xs.
Proof.
  intros Hl0 Hne Hne2 H1 H2 Hlt H1' H2' Hlt3.
  destruct (generate_token_spec self a r now e1 e2 uid (VRef l0) st H1 H2)
    as (pair & st1 & sa & sr & la & lr & Hg & Hp & Hs & Hla & Hlr & _ & Hxs & _).
  destruct (Hxs xs ltac:(unfold list_of; rewrite Hl0; reflexivity)) as [_ Hsr].
  destruct (refresh_metadata_lookups uid sr (_hash_token a) e2)
    as (Hru & Hrs & Hrl & Hrty & Hre).
  set (rm := refresh_metadata uid sr (_hash_token a) e2) in *.
  assert (Hget : MemoryTokenStorage.get (_hash_token r) st1
                 = Ok (Some (List.length (heap st1)))
                      (State (heap st1 ++ [ODict rm]) (_store st1))).
  { apply (get_encoded _ lr).
    - rewrite Hs. apply lookup_insert_eq.
    - exact Hlr.
    - apply decode_refresh. eapply add_seconds_valid. exact H2. }
  assert (Hd : dict_at (heap st1 ++ [ODict rm]) (List.length (heap st1)) = Some rm).
  { unfold dict_at. rewrite lookup_new. reflexivity. }
  pose proof (refresh_token_rotates self r now1 e2 a2 r2 now2 a uid sr _ _ _ _
                Hget Hd Hrty Hre Hlt Hrl Hru Hrs) as Hrot.
  match type of Hrot with
  | context [generate_token self a2 r2 now2 uid sr ?s] =>
      destruct (generate_token_spec self a2 r2 now2 e1' e2' uid sr s H1' H2')
        as (pair2 & st2 & sa2 & sr2 & la2 & lr2 & Hg2 & Hp2 & _ & _ & _ & Hpair2 & _)
  end.
  rewrite Hg2 in Hrot.
  destruct (generate_validate _ _ _ _ _ _ _ _ _ _ _ Hg2 Hne2 H1' Hlt3)
    as (td & st3 & sa3 & Hv & Hctx & _ & Hxs3 & _).
  destruct (access_metadata_lookups uid sa3 e1') as (Hu & Hsc & _).
  exists pair, st1, pair2, st2, td, st3, (access_metadata uid sa3 e1'), sa3.
  repeat split; try assumption.
  - unfold dict_at. rewrite Hpair2. reflexivity.
  - apply Hxs3. cbn [heap]. eapply list_of_prefix; [|exact Hsr].
    apply prefix_app_r. reflexivity.
Qed.

(** ** The caller's list of scopes *)

Lemma or_new_list_truthy (scopes : value) (st : state) :
  truthy_in (heap st) scopes = true -> or_new_list scopes st = Ok scopes st.
Proof. intros H. unfold or_new_list, bind, truthy. rewrite H. reflexivity. Qed.

Lemma truthy_list (h : list obj) (l : loc) (xs : list string) :
  h !! l = Some (OList xs) -> xs <> [] -> truthy_in h (VRef l) = true.
Proof.
  intros Hl Hxs. unfold truthy_in. rewrite Hl. destruct xs; [contradiction|reflexivity].
Qed.

(** With a list that is not empty, both records written by
    [generate_token] refer to the list object of the caller. *)
Lemma generate_token_shares (self : TokenManager) (a r : string) (now e1 e2 : datetime)
    (uid : value) (l0 : loc) (xs : list string) (st : state) :
  heap st !! l0 = Some (OList xs) ->
  xs <> [] ->
  Datetime.add_seconds now (token_ttl self) = inr e1 ->
  Datetime.add_seconds now (refresh_ttl self) = inr e2 ->
  exists pair st' la lr,
    generate_token self a r now uid (VRef l0) st = Ok pair st' /\
    heap st `prefix_of` heap st' /\
    _store st' = <[_hash_token r := lr]> (<[_hash_token a := la]> (_store st)) /\
    heap st' !! la = Some (ODict (encode (access_metadata uid (VRef l0) e1))) /\
    heap st' !! lr
    = Some (ODict (encode (refresh_metadata uid (VRef l0) (_hash_token a) e2))).
Proof.
  intros Hl0 Hxs H1 H2. unfold generate_token. rewrite H1, H2. cbn [lift].
  do 2 (erewrite bind_ok by reflexivity).
  erewrite bind_ok by (apply or_new_list_truthy; eapply truthy_list; eassumption).
  erewrite bind_ok by reflexivity.
  erewrite bind_ok by (apply set_eq; cbn [heap]; apply lookup_new).
  cbn [heap _store].
  erewrite bind_ok
    by (apply or_new_list_truthy; cbn [heap]; eapply truthy_list; [|exact Hxs];
        rewrite <- app_assoc; apply lookup_old; exact Hl0).
  erewrite bind_ok by reflexivity.
  erewrite bind_ok by (apply set_eq; cbn [heap]; apply lookup_new).
  cbn [heap _store]. unfold alloc. cbn [heap _store].
  do 4 eexists. split; [reflexivity|]. cbn [heap _store].
  split; [rewrite <- !app_assoc; apply prefix_app_r; reflexivity|].
  split; [reflexivity|]. split.
  - do 3 apply lookup_old. apply lookup_new.
  - apply lookup_old. apply lookup_new.
Qed.

(** X16: [generate_token] stores the caller's list itself, not a copy.
    When the list of scopes is not empty and the caller appends to it
    after the call, [validate_token] returns a context whose scopes are
    that very list, with the appended scope in it. *)
Theorem scopes_list_shared_with_caller (self : TokenManager) (a r : string)
    (now now' e1 e2 : datetime) (uid : value) (l0 : loc) (xs : list string)
    (x : string) (st : state) :
  heap st !! l0 = Some (OList xs) ->
  xs <> [] ->
  _hash_token a <> _hash_token r ->
  Datetime.add_seconds now (token_ttl self) = inr e1 ->
  Datetime.add_seconds now (refresh_ttl self) = inr e2 ->
  Datetime.lt e1 now' = false ->
  exists pair st1 st2 td st3 ctx,
    generate_token self a r now uid (VRef l0) st = Ok pair st1 /\
    list_append l0 x st1 = Ok tt st2 /\
    validate_token a now' st2 = Ok (Some td) st3 /\
    dict_at (heap st3) td = Some ctx /\
    ctx !! "scopes"%string = Some (VRef l0) /\
    list_of (heap st3) (VRef l0) = Some (xs ++ [x]).
Proof.
  intros Hl0 Hxs Hne H1 H2 Hlt.
  destruct (generate_token_shares self a r now e1 e2 uid l0 xs st Hl0 Hxs H1 H2)
    as (pair & st1 & la & lr & Hg & Hp & Hs & Hla & _).
  pose proof (prefix_lookup _ _ _ _ Hp Hl0) as Hl1.
  assert (Happ : list_append l0 x st1
                 = Ok tt (State (<[l0 := OList (xs ++ [x])]> (heap st1)) (_store st1))).
  { unfold list_append, bind, load_list. rewrite Hl1. reflexivity. }
  assert (Hneq : l0 <> la) by (intros ->; rewrite Hl1 in Hla; discriminate).
  set (am := access_metadata uid (VRef l0) e1) in *.
  set (h2 := <[l0 := OList (xs ++ [x])]> (heap st1)) in *.
  assert (Hget : MemoryTokenStorage.get (_hash_token a) (State h2 (_store st1))
                 = Ok (Some (List.length h2)) (State (h2 ++ [ODict am]) (_store st1))).
  { apply (get_encoded (_hash_token a) la am (State h2 (_store st1))).
    - cbn [_store]. rewrite Hs. rewrite lookup_insert_ne by congruence.
      apply lookup_insert_eq.
    - cbn [heap]. subst h2. rewrite list_lookup_insert_ne by exact Hneq. exact Hla.
    - apply decode_access. eapply add_seconds_valid. exact H1. }
  assert (Hd : dict_at (h2 ++ [ODict am]) (List.length h2) = Some am).
  { unfold dict_at. rewrite lookup_new. reflexivity. }
  destruct (access_metadata_lookups uid (VRef l0) e1) as (_ & Hsc & Hty & Hexp).
  exists pair, st1, (State h2 (_store st1)), (List.length h2),
         (State (h2 ++ [ODict am]) (_store st1)), am.
  split; [exact Hg|]. split; [exact Happ|].
  split; [eapply validate_token_valid; eassumption|].
  split; [exact Hd|]. split; [exact Hsc|].
  assert (Hlist : h2 !! l0 = Some (OList (xs ++ [x]))).
  { subst h2. apply list_lookup_insert_eq. eapply lookup_lt_Some. exact Hl1. }
  unfold list_of. cbn [heap]. rewrite (lookup_old _ _ _ _ Hlist). reflexivity.
Qed.

(** X17: [refresh_token] is not atomic.  On a Refresh record in date that
    has no [user_id], it raises [KeyError], and by then it has deleted the
    refresh record and the access record it links to. *)
Theorem refresh_token_raises_after_deleting (self : TokenManager) (token access : string)
    (now e : datetime) (a2 r2 : string) (now' : datetime) (st : state) :
  returned_field (MemoryTokenStorage.get (_hash_token token) st) "type"
    = Some (VStr "refresh") ->
  returned_field (MemoryTokenStorage.get (_hash_token token) st) "expires_at"
    = Some (VDatetime e) ->
  Datetime.lt e now = false ->
  returned_field (MemoryTokenStorage.get (_hash_token token) st) "access_token_hash"
    = Some (VStr (_hash_token access)) ->
  returned_field (MemoryTokenStorage.get (_hash_token token) st) "user_id" = None ->
  exists st2,
    refresh_token self token now a2 r2 now' st = Raise KeyError st2 /\
    _store st2
    = base.delete (_hash_token token) (base.delete (_hash_token access) (_store st)).
Proof.
  intros Hty Hexp Hlt Hlink Hu.
  destruct (returned_fields_inv _ _ _ _ _ Hty Hexp) as (td & st1 & r & Hget & Hr & Ht & He).
  unfold returned_field in Hlink, Hu. rewrite Hget, Hr in Hlink, Hu.
  eexists. split.
  - unfold refresh_token.
    rewrite (bind_ok _ _ _ _ _ Hget).
    erewrite bind_ok by (eapply found_present; eassumption). cbn [negb].
    erewrite bind_ok by (eapply found_load; eassumption).
    rewrite (dict_get_Some _ _ _ Ht), (dict_get_Some _ _ _ He), (dict_get_Some _ _ _ Hlink).
    cbn [is_str String.eqb Ascii.eqb Bool.eqb negb].
    rewrite Hu.
    unfold expired, bind, truthy, lt_datetime, ret, raise,
      MemoryTokenStorage.delete_value, MemoryTokenStorage.delete.
    cbn [truthy_in negb]. rewrite Hlt. cbn [negb].
    rewrite hash_token_nonempty. cbn [negb heap _store]. reflexivity.
  - cbn [_store]. erewrite found_store by eassumption. reflexivity.
Qed.


(** X19: scopes left out are stored as an empty list.  With no scopes
    given, the access token validates to a context whose scopes are a list
    with nothing in it. *)
Theorem omitted_scopes_are_empty (self : TokenManager) (a r : string)
    (now now' e1 e2 : datetime) (uid : value) (st : state) :
  _hash_token a <> _hash_token r ->
  Datetime.add_seconds now (token_ttl self) = inr e1 ->
  Datetime.add_seconds now (refresh_ttl self) = inr e2 ->
  Datetime.lt e1 now' = false ->
  exists pair st1 td st2 ctx sv,
    generate_token self a r now uid VNone st = Ok pair st1 /\
    validate_token a now' st1 = Ok (Some td) st2 /\
    dict_at (heap st2) td = Some ctx /\
    ctx !! "scopes"%string = Some sv /\
    list_of (heap st2) sv = Some [].
Proof.
  intros Hne H1 H2 Hlt.
  destruct (generate_token_spec self a r now e1 e2 uid VNone st H1 H2)
    as (pair & st1 & sa' & sr & la & lr & Hg & _).
  destruct (generate_validate _ _ _ _ _ _ _ _ _ _ _ Hg Hne H1 Hlt)
    as (td & st2 & sa & Hv & Hd & _ & _ & Hnone).
  destruct (access_metadata_lookups uid sa e1) as (_ & Hsc & _).
  exists pair, st1, td, st2, (access_metadata uid sa e1), sa.
  repeat split; try assumption. apply Hnone. reflexivity.
Qed.

(** ** Concrete runs of the further properties *)

Lemma set_writes_one_key_witness :
  exists st1,
    MemoryTokenStorage.set "k" 0%nat demo_caller = Ok tt st1 /\
    heap st1 !! 0%nat = Some (ODict demo_record) /\
    stored st1 "k" = Some (encode demo_record) /\
    heap demo_caller `prefix_of` heap st1 /\
    (forall k, k <> "k"%string -> _store st1 !! k = _store demo_caller !! k) /\
    (forall k d', k <> "k"%string -> stored demo_caller k = Some d' -> stored st1 k = Some d').
Proof.
  apply (set_writes_one_key "k" 0%nat demo_record demo_caller). reflexivity.
Defined.

Lemma set_overwrites_witness :
  exists st1 st2 l st3,
    MemoryTokenStorage.set "k" 0%nat demo_caller = Ok tt st1 /\
    MemoryTokenStorage.set "k" 1%nat st1 = Ok tt st2 /\
    MemoryTokenStorage.get "k" st2 = Ok (Some l) st3 /\
    dict_at (heap st3) l = Some demo_refresh_record.
Proof.
  apply (set_overwrites "k" 0%nat 1%nat demo_record demo_refresh_record
           demo_refresh_expiry demo_caller).
  - reflexivity.
  - reflexivity.
  - reflexivity.
  - vm_compute. reflexivity.
Defined.

Lemma delete_missing_noop_witness :
  MemoryTokenStorage.delete "other" demo_stored = Ok tt demo_stored.
Proof.
  apply (delete_missing_noop "other" demo_stored). vm_compute. reflexivity.
Defined.

Lemma get_returns_fresh_copy_witness :
  exists l st1,
    MemoryTokenStorage.get "k" demo_stored = Ok (Some l) st1 /\
    dict_at (heap st1) l = Some demo_record /\
    forall k v,
      exists st2 l' st3,
        dict_setitem l k v st1 = Ok tt st2 /\
        MemoryTokenStorage.get "k" st2 = Ok (Some l') st3 /\
        l' <> l /\
        dict_at (heap st3) l' = Some demo_record.
Proof.
  apply (get_returns_fresh_copy "k" (encode demo_record) demo_record demo_stored).
  - reflexivity.
  - apply decode_access. vm_compute. reflexivity.
Defined.

Lemma string_expiry_witness :
  exists st1 l' st2 r,
    MemoryTokenStorage.set "k" 0%nat (State [ODict demo_string_record] ∅) = Ok tt st1 /\
    MemoryTokenStorage.get "k" st1 = Ok (Some l') st2 /\
    dict_at (heap st2) l' = Some r /\
    r !! "expires_at"%string = Some (VDatetime demo_access_expiry) /\
    (forall k, k <> "expires_at"%string -> r !! k = demo_string_record !! k).
Proof.
  apply (string_expiry_comes_back_as_datetime "k" 0%nat demo_string_record
           demo_access_expiry (State [ODict demo_string_record] ∅)).
  - reflexivity.
  - reflexivity.
  - vm_compute. reflexivity.
Defined.

Lemma validate_token_without_expiry_witness :
  exists st2,
    validate_token "N" demo_now demo_no_expiry = Ok None st2 /\
    _store st2 = base.delete (_hash_token "N") (_store demo_no_expiry) /\
    MemoryTokenStorage.get (_hash_token "N") st2 = Ok None st2.
Proof.
  apply (validate_token_without_expiry "N" demo_now demo_no_expiry).
  - vm_compute. reflexivity.
  - left. vm_compute. reflexivity.
Defined.

Lemma validate_token_repeatable_witness :
  exists td st1 td2 st2 ctx,
    validate_token "A" demo_now demo_state1 = Ok (Some td) st1 /\
    dict_at (heap st1) td = Some ctx /\
    validate_token "A" demo_access_expiry st1 = Ok (Some td2) st2 /\
    dict_at (heap st2) td2 = Some ctx.
Proof.
  apply (validate_token_repeatable "A" demo_now demo_access_expiry demo_access_expiry
           demo_state1); vm_compute; reflexivity.
Defined.

Lemma revoked_token_is_dead_witness :
  let st1 := final_state (revoke_token "A" demo_state1) in
  revoke_token "A" st1 = Ok false st1 /\
  (forall now, validate_token "A" now st1 = Ok None st1) /\
  (forall now a2 r2 now',
     refresh_token demo_manager "A" now a2 r2 now' st1 = Ok None st1).
Proof.
  apply (revoked_token_is_dead demo_manager "A" demo_state1). vm_compute. reflexivity.
Defined.

Lemma generate_token_writes_two_keys_witness :
  is_Some (_store demo_state1 !! _hash_token "A") /\
  is_Some (_store demo_state1 !! _hash_token "R") /\
  heap demo_state0 `prefix_of` heap demo_state1 /\
  (forall k, k <> _hash_token "A" -> k <> _hash_token "R" ->
             _store demo_state1 !! k = _store demo_state0 !! k) /\
  (forall k d, k <> _hash_token "A" -> k <> _hash_token "R" ->
               stored demo_state0 k = Some d -> stored demo_state1 k = Some d).
Proof.
  apply (generate_token_writes_two_keys demo_manager "A" "R" demo_now
           demo_access_expiry demo_refresh_expiry (VStr "u1") (VRef 0%nat) demo_state0);
    vm_compute; reflexivity.
Defined.

Lemma refreshed_token_keeps_identity_witness :
  exists pair st1 pair2 st2 td st3 ctx sv,
    generate_token demo_manager "A" "R" demo_now (VStr "u1") (VRef 0%nat) demo_state0
      = Ok pair st1 /\
    refresh_token demo_manager "R" demo_later "A2" "R2" demo_later st1
      = Ok (Some pair2) st2 /\
    dict_at (heap st2) pair2 = Some (token_pair "A2" "R2" (token_ttl demo_manager)) /\
    validate_token "A2" demo_later st2 = Ok (Some td) st3 /\
    dict_at (heap st3) td = Some ctx /\
    ctx !! "user_id"%string = Some (VStr "u1") /\
    ctx !! "scopes"%string = Some sv /\
    list_of (heap st3) sv = Some ["read"%string].
Proof.
  apply (refreshed_token_keeps_identity demo_manager "A" "R" "A2" "R2"
           demo_now demo_later demo_later demo_later
           demo_access_expiry demo_refresh_expiry
           demo_later_access_expiry demo_later_refresh_expiry
           (VStr "u1") 0%nat ["read"%string] demo_state0).
  - reflexivity.
  - vm_compute. discriminate.
  - vm_compute. discriminate.
  - vm_compute. reflexivity.
  - vm_compute. reflexivity.
  - vm_compute. reflexivity.
  - vm_compute. reflexivity.
  - vm_compute. reflexivity.
  - vm_compute. reflexivity.
Defined.

Lemma scopes_list_shared_witness :
  exists pair st1 st2 td st3 ctx,
    generate_token demo_manager "A" "R" demo_now (VStr "u1") (VRef 0%nat) demo_state0
      = Ok pair st1 /\
    list_append 0%nat "admin" st1 = Ok tt st2 /\
    validate_token "A" demo_now st2 = Ok (Some td) st3 /\
    dict_at (heap st3) td = Some ctx /\
    ctx !! "scopes"%string = Some (VRef 0%nat) /\
    list_of (heap st3) (VRef 0%nat) = Some (["read"%string] ++ ["admin"%string]).
Proof.
  apply (scopes_list_shared_with_caller demo_manager "A" "R" demo_now demo_now
           demo_access_expiry demo_refresh_expiry (VStr "u1") 0%nat ["read"%string]
           "admin" demo_state0).
  - reflexivity.
  - discriminate.
  - vm_compute. discriminate.
  - vm_compute. reflexivity.
  - vm_compute. reflexivity.
  - vm_compute. reflexivity.
Defined.

Lemma refresh_token_raises_after_deleting_witness :
  exists st2,
    refresh_token demo_manager "R" demo_later "A2" "R2" demo_later demo_no_user
      = Raise KeyError st2 /\
    _store st2
    = base.delete (_hash_token "R") (base.delete (_hash_token "A") (_store demo_no_user)).
Proof.
  apply (refresh_token_raises_after_deleting demo_manager "R" "A" demo_later
           demo_refresh_expiry "A2" "R2" demo_later demo_no_user);
    vm_compute; reflexivity.
Defined.


Lemma omitted_scopes_are_empty_witness :
  exists pair st1 td st2 ctx sv,
    generate_token demo_manager "A" "R" demo_now (VStr "u1") VNone init = Ok pair st1 /\
    validate_token "A" demo_now st1 = Ok (Some td) st2 /\
    dict_at (heap st2) td = Some ctx /\
    ctx !! "scopes"%string = Some sv /\
    list_of (heap st2) sv = Some [].
Proof.
  apply (omitted_scopes_are_empty demo_manager "A" "R" demo_now demo_now
           demo_access_expiry demo_refresh_expiry (VStr "u1") init).
  - vm_compute. discriminate.
  - vm_compute. reflexivity.
  - vm_compute. reflexivity.
  - vm_compute. reflexivity.
Defined.
